(** * files2llm: the export converters, the clipboard writer and the
      file-batch reader of [src/App.js], embedded and verified.

    JavaScript strings are sequences of UTF-16 code units; a code unit is
    modelled as an [N] below 65536 and a string as a list of code units.
    The converters are pure functions on such strings.  The clipboard
    writer and the batch reader are effectful: they are written in a small
    state-and-exception monad over a model of the browser (document body,
    system clipboard, console, timers). *)

From Stdlib Require Import NArith List String Ascii Bool Lia.
From stdpp Require Import base option list.
Import ListNotations.

Local Open Scope N_scope.
Set Warnings "-register-all".

(** ** JavaScript strings *)

Definition code_unit := N.
Definition jsstring := list code_unit.

(** A string literal of the source, as its code units (ASCII only). *)
Definition lit (s : string) : jsstring :=
  map N_of_ascii (list_ascii_of_string s).

(** A well-formed string holds 16-bit code units only. *)
Definition wf_unit (c : code_unit) : bool := c <? 65536.
Definition wf_string (s : jsstring) : bool := forallb wf_unit s.

(** Characters that the source names. *)
Definition ch_amp : code_unit := 38.    (* & *)
Definition ch_lt : code_unit := 60.     (* < *)
Definition ch_gt : code_unit := 62.     (* > *)
Definition ch_quot : code_unit := 34.   (* double quote *)
Definition ch_apos : code_unit := 39.   (* ' *)
Definition ch_lf : code_unit := 10.     (* line feed *)

(** [s.replace(/c/g, rep)] for a one-character pattern: every occurrence
    of [c], left to right, is replaced by [rep]. *)
Definition replace_char (c : code_unit) (rep : jsstring) (s : jsstring) : jsstring :=
  flat_map (fun x => if x =? c then rep else [x]) s.

(** [is_prefix p s]: [s] starts with [p]. *)
Fixpoint is_prefix (p s : jsstring) : bool :=
  match p, s with
  | [], _ => true
  | _ :: _, [] => false
  | a :: p', b :: s' => (a =? b) && is_prefix p' s'
  end.

(** Strict equality of strings. *)
Fixpoint str_eqb (a b : jsstring) : bool :=
  match a, b with
  | [], [] => true
  | x :: a', y :: b' => (x =? y) && str_eqb a' b'
  | _, _ => false
  end.

(** Global replacement of a literal pattern, as [s.replace(/pat/g, rep)]
    does it for a pattern without metacharacters: scan left to right; at a
    match emit [rep] and resume after the match, otherwise copy one code
    unit.  [skip] counts the code units of a match still to be passed. *)
Fixpoint replace_from (pat rep : jsstring) (skip : nat) (s : jsstring) : jsstring :=
  match s with
  | [] => []
  | c :: s' =>
      match skip with
      | S k => replace_from pat rep k s'
      | O =>
          if is_prefix pat s
          then rep ++ replace_from pat rep (Nat.pred (length pat)) s'
          else c :: replace_from pat rep O s'
      end
  end.

Definition replace_all (pat rep : jsstring) (s : jsstring) : jsstring :=
  match pat with
  | [] => s
  | _ => replace_from pat rep O s
  end.

(** ** The data model: [{ fileName, content }] *)

Record FileRecord := mkFileRecord {
  fileName : jsstring;
  content : jsstring
}.

(** ** convertToXML *)

Definition ent_amp : jsstring := Eval cbv in lit "&amp;".
Definition ent_lt : jsstring := Eval cbv in lit "&lt;".
Definition ent_gt : jsstring := Eval cbv in lit "&gt;".
Definition ent_quot : jsstring := Eval cbv in lit "&quot;".
Definition ent_apos : jsstring := Eval cbv in lit "&apos;".

(** The [escapedContent] of the source: five chained global replacements,
    ampersand first. *)
Definition escapeContent (c : jsstring) : jsstring :=
  replace_char ch_apos ent_apos
    (replace_char ch_quot ent_quot
      (replace_char ch_gt ent_gt
        (replace_char ch_lt ent_lt
          (replace_char ch_amp ent_amp c)))).

(** One [<file>] element, as the template literal builds it: a line break,
    two spaces, the start tag with the unescaped name, the escaped
    content, the end tag. *)
Definition xml_element (file : FileRecord) : jsstring :=
  ch_lf :: lit "  <file name=" ++ [ch_quot] ++ fileName file ++ [ch_quot; ch_gt]
    ++ escapeContent (content file) ++ lit "</file>".

Definition convertToXML (filesData : list FileRecord) : jsstring :=
  let xml := lit "<files>" in
  let xml := fold_left (fun xml file => xml ++ xml_element file) filesData xml in
  xml ++ ch_lf :: lit "</files>".

(** Decoding, as the specification words it: the five substitutions
    reversed, that is undone last to first. *)
Definition unescapeContent (e : jsstring) : jsstring :=
  replace_all ent_amp [ch_amp]
    (replace_all ent_lt [ch_lt]
      (replace_all ent_gt [ch_gt]
        (replace_all ent_quot [ch_quot]
          (replace_all ent_apos [ch_apos] e)))).

(** The entity references that escaping can produce. *)
Definition entities : list jsstring :=
  [ent_amp; ent_lt; ent_gt; ent_quot; ent_apos].

(** An occurrence of a reserved character is raw when it is not part of an
    entity reference.  The only reserved character inside the references
    is their leading ampersand, so a string has no raw occurrence when
    [<], [>], the two quotes do not occur at all and every ampersand
    starts one of the five references. *)
Fixpoint no_raw_reserved (s : jsstring) : bool :=
  match s with
  | [] => true
  | c :: s' =>
      (if c =? ch_amp then existsb (fun e => is_prefix e s) entities
       else negb (existsb (N.eqb c) [ch_lt; ch_gt; ch_quot; ch_apos]))
      && no_raw_reserved s'
  end.

(** The escape of one code unit, all five rules at once. *)
Definition escape_unit (x : code_unit) : jsstring :=
  if x =? ch_amp then ent_amp
  else if x =? ch_lt then ent_lt
  else if x =? ch_gt then ent_gt
  else if x =? ch_quot then ent_quot
  else if x =? ch_apos then ent_apos
  else [x].

(** The escape after the last [5 - k] substitutions have been undone:
    only the first [k] rules, in source order, still apply. *)
Definition escape_rules : list (code_unit * jsstring) :=
  [(ch_amp, ent_amp); (ch_lt, ent_lt); (ch_gt, ent_gt);
   (ch_quot, ent_quot); (ch_apos, ent_apos)].

Fixpoint escape_with (rules : list (code_unit * jsstring)) (x : code_unit) : jsstring :=
  match rules with
  | [] => [x]
  | (c, e) :: rules' => if x =? c then e else escape_with rules' x
  end.

Definition escape_first (k : nat) (x : code_unit) : jsstring :=
  escape_with (firstn k escape_rules) x.

(** ** convertToMarkdown *)

(** The code units that [String.prototype.trim] strips: the WhiteSpace
    and LineTerminator productions of ECMAScript. *)
Definition is_js_space (c : code_unit) : bool :=
  existsb (N.eqb c)
    [9; 10; 11; 12; 13; 32; 160; 5760; 8232; 8233; 8239; 8287; 12288; 65279]
  || ((8192 <=? c) && (c <=? 8202)).

Fixpoint trimStart (s : jsstring) : jsstring :=
  match s with
  | [] => []
  | c :: s' => if is_js_space c then trimStart s' else s
  end.

Definition trimEnd (s : jsstring) : jsstring := rev (trimStart (rev s)).

Definition trim (s : jsstring) : jsstring := trimEnd (trimStart s).

Definition md_fence : jsstring := Eval cbv in lit "```".

(** One iteration of the template literal: heading line, fence line,
    content line, fence line, empty line. *)
Definition md_block (file : FileRecord) : jsstring :=
  lit "## " ++ fileName file ++ [ch_lf]
    ++ md_fence ++ [ch_lf]
    ++ content file ++ [ch_lf]
    ++ md_fence ++ [ch_lf]
    ++ [ch_lf].

Definition convertToMarkdown (filesData : list FileRecord) : jsstring :=
  let md := fold_left (fun md file => md ++ md_block file) filesData [] in
  trim md.

(** ** JSON.stringify, for the values the exporter passes to it *)

(** The JavaScript values that occur: strings, arrays and plain objects
    with their own enumerable properties in insertion order, and the
    literals.  Numbers do not occur in the exported data and are left
    out. *)
Inductive json :=
| JNull
| JBool (b : bool)
| JString (s : jsstring)
| JArray (elements : list json)
| JObject (properties : list (jsstring * json)).

(** The array of [{ fileName, content }] objects as a JavaScript value. *)
Definition record_value (file : FileRecord) : json :=
  JObject [(lit "fileName", JString (fileName file));
           (lit "content", JString (content file))].

Definition records_value (filesData : list FileRecord) : json :=
  JArray (map record_value filesData).

Definition hex_digit (d : N) : code_unit :=
  if d <? 10 then 48 + d else 87 + d.

(** UnicodeEscape: a backslash, [u] and four lowercase hexadecimal digits. *)
Definition unicode_escape (c : code_unit) : jsstring :=
  [92; 117; hex_digit (c / 4096 mod 16); hex_digit (c / 256 mod 16);
   hex_digit (c / 16 mod 16); hex_digit (c mod 16)].

Definition is_high_surrogate (c : code_unit) : bool := (55296 <=? c) && (c <=? 56319).
Definition is_low_surrogate (c : code_unit) : bool := (56320 <=? c) && (c <=? 57343).

(** One code point that is not a surrogate pair. *)
Definition quote_unit (c : code_unit) : jsstring :=
  if c =? 8 then [92; 98]
  else if c =? 9 then [92; 116]
  else if c =? 10 then [92; 110]
  else if c =? 12 then [92; 102]
  else if c =? 13 then [92; 114]
  else if c =? 34 then [92; 34]
  else if c =? 92 then [92; 92]
  else if (c <? 32) || is_high_surrogate c || is_low_surrogate c
       then unicode_escape c
  else [c].

(** QuoteJSONString iterates over code points: a surrogate pair is copied,
    a lone surrogate is escaped. *)
Fixpoint quote_units (s : jsstring) : jsstring :=
  match s with
  | [] => []
  | c :: r =>
      if is_high_surrogate c then
        match r with
        | d :: r' =>
            if is_low_surrogate d then c :: d :: quote_units r'
            else unicode_escape c ++ quote_units r
        | [] => unicode_escape c
        end
      else quote_unit c ++ quote_units r
  end.

Definition QuoteJSONString (s : jsstring) : jsstring :=
  [34] ++ quote_units s ++ [34].

(** [join sep parts]: the parts with [sep] between them. *)
Fixpoint join (sep : jsstring) (parts : list jsstring) : jsstring :=
  match parts with
  | [] => []
  | [x] => x
  | x :: rest => x ++ sep ++ join sep rest
  end.

(** SerializeJSONProperty with its SerializeJSONArray and
    SerializeJSONObject, for a given [gap] and current [indent]. *)
Fixpoint serialize (gap indent : jsstring) (v : json) : jsstring :=
  let stepback := indent in
  let indent := indent ++ gap in
  match v with
  | JNull => lit "null"
  | JBool true => lit "true"
  | JBool false => lit "false"
  | JString s => QuoteJSONString s
  | JArray [] => lit "[]"
  | JArray elements =>
      let partial := map (serialize gap indent) elements in
      match gap with
      | [] => lit "[" ++ join (lit ",") partial ++ lit "]"
      | _ =>
          lit "[" ++ [ch_lf] ++ indent
            ++ join (lit "," ++ [ch_lf] ++ indent) partial
            ++ [ch_lf] ++ stepback ++ lit "]"
      end
  | JObject [] => lit "{}"
  | JObject properties =>
      let member (kv : jsstring * json) :=
        QuoteJSONString (fst kv) ++ lit ":"
          ++ (match gap with [] => [] | _ => lit " " end)
          ++ serialize gap indent (snd kv) in
      let partial := map member properties in
      match gap with
      | [] => lit "{" ++ join (lit ",") partial ++ lit "}"
      | _ =>
          lit "{" ++ [ch_lf] ++ indent
            ++ join (lit "," ++ [ch_lf] ++ indent) partial
            ++ [ch_lf] ++ stepback ++ lit "}"
      end
  end.

(** [JSON.stringify(value, null, space)] for a numeric [space]: the gap is
    that many spaces, ten at most. *)
Definition JSON_stringify (value : json) (space : nat) : jsstring :=
  serialize (repeat 32 (Nat.min space 10)) [] value.

(** ** JSON.parse, for the same values *)

(** JSON white space: space, tab, line feed, carriage return. *)
Definition is_json_ws (c : code_unit) : bool :=
  (c =? 32) || (c =? 9) || (c =? 10) || (c =? 13).

Fixpoint skip_ws (s : jsstring) : jsstring :=
  match s with
  | [] => []
  | c :: s' => if is_json_ws c then skip_ws s' else s
  end.

Definition hex_value (h : code_unit) : option N :=
  if (48 <=? h) && (h <=? 57) then Some (h - 48)
  else if (97 <=? h) && (h <=? 102) then Some (h - 87)
  else if (65 <=? h) && (h <=? 70) then Some (h - 55)
  else None.

Definition hex4_value (h1 h2 h3 h4 : code_unit) : option code_unit :=
  match hex_value h1, hex_value h2, hex_value h3, hex_value h4 with
  | Some a, Some b, Some c, Some d => Some (4096 * a + 256 * b + 16 * c + d)
  | _, _, _, _ => None
  end.

(** The character a two-character escape stands for. *)
Definition simple_escape (e : code_unit) : option code_unit :=
  if e =? 34 then Some 34
  else if e =? 92 then Some 92
  else if e =? 47 then Some 47
  else if e =? 98 then Some 8
  else if e =? 102 then Some 12
  else if e =? 110 then Some 10
  else if e =? 114 then Some 13
  else if e =? 116 then Some 9
  else None.

Definition push_unit (c : code_unit) (r : option (jsstring * jsstring))
    : option (jsstring * jsstring) :=
  match r with
  | Some (s, rest) => Some (c :: s, rest)
  | None => None
  end.

(** The characters of a JSON string after its opening quote, up to and
    including the closing quote: the decoded string and the remaining
    input.  Control characters must be escaped. *)
Fixpoint parse_chars (s : jsstring) : option (jsstring * jsstring) :=
  match s with
  | [] => None
  | c :: r =>
      if c =? 34 then Some ([], r)
      else if c =? 92 then
        match r with
        | [] => None
        | e :: r1 =>
            if e =? 117 then
              match r1 with
              | h1 :: h2 :: h3 :: h4 :: r2 =>
                  match hex4_value h1 h2 h3 h4 with
                  | Some u => push_unit u (parse_chars r2)
                  | None => None
                  end
              | _ => None
              end
            else
              match simple_escape e with
              | Some u => push_unit u (parse_chars r1)
              | None => None
              end
        end
      else if c <? 32 then None
      else push_unit c (parse_chars r)
  end.

(** Recursive descent over values, array elements and object members.
    [fuel] bounds the nesting of calls; every call consumes input, so the
    length of the input is enough. *)
Fixpoint parse_value (fuel : nat) (s : jsstring) : option (json * jsstring) :=
  match fuel with
  | O => None
  | S fuel =>
      match skip_ws s with
      | [] => None
      | c :: r =>
          if c =? 34 then
            match parse_chars r with
            | Some (str, rest) => Some (JString str, rest)
            | None => None
            end
          else if c =? 91 then
            match skip_ws r with
            | d :: r' =>
                if d =? 93 then Some (JArray [], r')
                else match parse_elements fuel r with
                     | Some (vs, rest) => Some (JArray vs, rest)
                     | None => None
                     end
            | [] => None
            end
          else if c =? 123 then
            match skip_ws r with
            | d :: r' =>
                if d =? 125 then Some (JObject [], r')
                else match parse_members fuel r with
                     | Some (kvs, rest) => Some (JObject kvs, rest)
                     | None => None
                     end
            | [] => None
            end
          else if is_prefix (lit "null") (c :: r) then
            Some (JNull, skipn 4 (c :: r))
          else if is_prefix (lit "true") (c :: r) then
            Some (JBool true, skipn 4 (c :: r))
          else if is_prefix (lit "false") (c :: r) then
            Some (JBool false, skipn 5 (c :: r))
          else None
      end
  end
with parse_elements (fuel : nat) (s : jsstring) : option (list json * jsstring) :=
  match fuel with
  | O => None
  | S fuel =>
      match parse_value fuel s with
      | Some (v, r) =>
          match skip_ws r with
          | d :: r' =>
              if d =? 44 then
                match parse_elements fuel r' with
                | Some (vs, rest) => Some (v :: vs, rest)
                | None => None
                end
              else if d =? 93 then Some ([v], r')
              else None
          | [] => None
          end
      | None => None
      end
  end
with parse_members (fuel : nat) (s : jsstring)
    : option (list (jsstring * json) * jsstring) :=
  match fuel with
  | O => None
  | S fuel =>
      match skip_ws s with
      | q :: r =>
          if q =? 34 then
            match parse_chars r with
            | Some (k, r1) =>
                match skip_ws r1 with
                | colon :: r2 =>
                    if colon =? 58 then
                      match parse_value fuel r2 with
                      | Some (v, r3) =>
                          match skip_ws r3 with
                          | d :: r4 =>
                              if d =? 44 then
                                match parse_members fuel r4 with
                                | Some (kvs, rest) => Some ((k, v) :: kvs, rest)
                                | None => None
                                end
                              else if d =? 125 then Some ([(k, v)], r4)
                              else None
                          | [] => None
                          end
                      | None => None
                      end
                    else None
                | [] => None
                end
            | None => None
            end
          else None
      | [] => None
      end
  end.

(** [JSON.parse]: one value, then nothing but white space.  [None] is a
    SyntaxError. *)
Definition JSON_parse (text : jsstring) : option json :=
  match parse_value (S (length text)) text with
  | Some (v, rest) =>
      match skip_ws rest with
      | [] => Some v
      | _ :: _ => None
      end
  | None => None
  end.

(** Every string of a value, keys included, is well formed. *)
Fixpoint wf_json (v : json) : bool :=
  match v with
  | JNull | JBool _ => true
  | JString s => wf_string s
  | JArray elements => forallb wf_json elements
  | JObject properties =>
      forallb (fun kv => wf_string (fst kv) && wf_json (snd kv)) properties
  end.

(** The number of nodes of a value: enough fuel to parse its text. *)
Fixpoint cost (v : json) : nat :=
  match v with
  | JNull | JBool _ | JString _ => 1
  | JArray elements => S (list_sum (map (fun e => S (cost e)) elements))
  | JObject properties =>
      S (list_sum (map (fun kv => S (cost (snd kv))) properties))
  end.

Definition all_ws (w : jsstring) : bool := forallb is_json_ws w.

(** The characters a value's text can start with: none is white space,
    a comma or a closing bracket. *)
Definition opens_value (c : code_unit) : bool :=
  existsb (N.eqb c) [110; 116; 102; 34; 91; 123].

(** One member of an object's text: quoted key, colon, white space [w3],
    the value's text. *)
Definition member_text (gap indent w3 : jsstring) (kv : jsstring * json) : jsstring :=
  QuoteJSONString (fst kv) ++ 58 :: w3 ++ serialize gap indent (snd kv).

(** The text [txt v] of a value parses back: with enough fuel the parser
    reads [v] from it and leaves what follows. *)
Definition parses_back (txt : json -> jsstring) (v : json) : Prop :=
  forall fuel rest, (cost v <= fuel)%nat ->
    parse_value fuel (txt v ++ rest) = Some (v, rest).

(** Reading the exported array back into records: objects with exactly
    the properties [fileName] and [content], in that order, both strings. *)
Definition value_record (v : json) : option FileRecord :=
  match v with
  | JObject [(k1, JString n); (k2, JString c)] =>
      if str_eqb k1 (lit "fileName") && str_eqb k2 (lit "content")
      then Some (mkFileRecord n c) else None
  | _ => None
  end.

Definition value_records (v : json) : option (list FileRecord) :=
  match v with
  | JArray elements => mapM value_record elements
  | _ => None
  end.

Definition wf_record (file : FileRecord) : bool :=
  wf_string (fileName file) && wf_string (content file).

(** ** getExportOutput *)

(** The [switch] on the selected format, by strict string equality. *)
Definition getExportOutput (selectedExportFormat : jsstring)
    (data : list FileRecord) : jsstring :=
  if str_eqb selectedExportFormat (lit "json") then
    JSON_stringify (records_value data) 2
  else if str_eqb selectedExportFormat (lit "xml") then
    convertToXML data
  else if str_eqb selectedExportFormat (lit "markdown") then
    convertToMarkdown data
  else [].

(** The text of one record in the JSON export, written out: an object at
    nesting depth one, its two members on lines of their own, indented by
    four spaces, the closing brace by two. *)
Definition record_text (file : FileRecord) : jsstring :=
  lit "{" ++ [ch_lf]
    ++ lit "    " ++ QuoteJSONString (lit "fileName") ++ lit ": "
    ++ QuoteJSONString (fileName file) ++ lit "," ++ [ch_lf]
    ++ lit "    " ++ QuoteJSONString (lit "content") ++ lit ": "
    ++ QuoteJSONString (content file) ++ [ch_lf]
    ++ lit "  }".

(** A markdown block without the line break and the empty line that end
    it. *)
Definition md_block_trimmed (file : FileRecord) : jsstring :=
  lit "## " ++ fileName file ++ [ch_lf]
    ++ md_fence ++ [ch_lf]
    ++ content file ++ [ch_lf]
    ++ md_fence.

(** ** The browser: state, faults, and a monad for the effectful code *)

Inductive dom_call :=
| CreateElement | AppendChild | Select | ExecCommand | RemoveChild.

(** What can be thrown, or rejected with. *)
Inductive error :=
| WriteTextRejected               (* navigator.clipboard.writeText rejects *)
| DomException (call : dom_call)  (* a DOM call throws *)
| NotFoundError                   (* removeChild of a node that is no child *)
| ReadError (code : N).           (* the error event of a FileReader *)

(** What the platform decides and the code cannot: whether the clipboard
    API exists and whether its write resolves, which DOM calls throw, and
    what [document.execCommand('copy')] returns when it does not throw
    ([true]: the command ran and copied the selected text, if any). *)
Record Platform := mkPlatform {
  clipboard_api : option bool;
  dom_throws : dom_call -> bool;
  execCommand_copy : bool
}.

(** An element.  [value] is the raw value of a text control, as assigned;
    what the control shows, selects and hands out is that value with its
    line breaks normalised ([normalize_newlines]). *)
Record Element := mkElement {
  node_id : nat;
  tagName : jsstring;
  value : jsstring;
  style_position : jsstring;
  style_left : jsstring
}.

(** The component state of [App], one field per [useState]. *)
Record AppState := mkAppState {
  filesData : list FileRecord;
  selectedExportFormat : jsstring;
  isDragging : bool;
  copyMessage : jsstring
}.

Inductive timer_action := ClearCopyMessage.

(** The page: component state, the children of [document.body], the
    current selection (the node that holds it and the selected text), the
    system clipboard, the console and the pending timers. *)
Record Page := mkPage {
  app_state : AppState;
  document_body : list Element;
  next_node_id : nat;
  selection : option (nat * jsstring);
  system_clipboard : jsstring;
  console : list (jsstring * error);
  timers : list (N * timer_action)
}.

(** How a computation ends: with a value, with an exception (a rejected
    promise, for an async function), or never, suspended on a promise that
    does not settle. *)
Inductive result (A : Type) :=
| Ok (a : A)
| Throw (e : error)
| Suspended.
Arguments Ok {A} a.
Arguments Throw {A} e.
Arguments Suspended {A}.

Definition M (A : Type) : Type := Page -> result A * Page.

Definition ret {A} (a : A) : M A := fun pg => (Ok a, pg).

Definition bind {A B} (m : M A) (k : A -> M B) : M B :=
  fun pg =>
    match m pg with
    | (Ok a, pg') => k a pg'
    | (Throw e, pg') => (Throw e, pg')
    | (Suspended, pg') => (Suspended, pg')
    end.

Definition throw {A} (e : error) : M A := fun pg => (Throw e, pg).

(** [try { m } catch (err) { handler err }] *)
Definition try_catch {A} (m : M A) (handler : error -> M A) : M A :=
  fun pg =>
    match m pg with
    | (Throw e, pg') => handler e pg'
    | r => r
    end.

Definition modify (f : Page -> Page) : M unit := fun pg => (Ok tt, f pg).
Definition gets {A} (f : Page -> A) : M A := fun pg => (Ok (f pg), pg).

Declare Scope js_scope.
Delimit Scope js_scope with js.
Notation "'let!' x := m 'in' k" := (bind m (fun x => k))
  (at level 10, x name, m at level 100, k at level 200) : js_scope.
Notation "'do!' m 'in' k" := (bind m (fun _ => k))
  (at level 10, m at level 100, k at level 200) : js_scope.
Local Open Scope js_scope.

Definition with_body (f : list Element -> list Element) (pg : Page) : Page :=
  mkPage (app_state pg) (f (document_body pg)) (next_node_id pg) (selection pg)
         (system_clipboard pg) (console pg) (timers pg).

Definition with_app (f : AppState -> AppState) (pg : Page) : Page :=
  mkPage (f (app_state pg)) (document_body pg) (next_node_id pg) (selection pg)
         (system_clipboard pg) (console pg) (timers pg).

(** A DOM call that the platform may make throw. *)
Definition dom {A} (p : Platform) (call : dom_call) (m : M A) : M A :=
  if dom_throws p call then throw (DomException call) else m.

Definition createElement (p : Platform) (tag : jsstring) : M Element :=
  dom p CreateElement (fun pg =>
    (Ok (mkElement (next_node_id pg) tag [] [] []),
     mkPage (app_state pg) (document_body pg) (S (next_node_id pg)) (selection pg)
            (system_clipboard pg) (console pg) (timers pg))).

Definition appendChild (p : Platform) (el : Element) : M unit :=
  dom p AppendChild (modify (with_body (fun body => body ++ [el]))).

(** The value a [<textarea>] hands out: every CR LF pair and every
    remaining CR of the raw value replaced by LF. *)
Fixpoint normalize_newlines (s : jsstring) : jsstring :=
  match s with
  | [] => []
  | c :: r =>
      if c =? 13 then
        match r with
        | d :: r' =>
            if d =? 10 then 10 :: normalize_newlines r'
            else 10 :: normalize_newlines r
        | [] => [10]
        end
      else c :: normalize_newlines r
  end.

(** [el.select()]: the selection is now the whole text of the control. *)
Definition select (p : Platform) (el : Element) : M unit :=
  dom p Select (modify (fun pg =>
    mkPage (app_state pg) (document_body pg) (next_node_id pg)
           (Some (node_id el, normalize_newlines (value el)))
           (system_clipboard pg) (console pg) (timers pg))).

Definition selected_text (pg : Page) : jsstring :=
  match selection pg with
  | Some (_, text) => text
  | None => []
  end.

(** The copy action: the selected text, if any, goes to the clipboard; an
    empty selection leaves the clipboard as it is. *)
Definition copy_selection (pg : Page) : Page :=
  match selected_text pg with
  | [] => pg
  | _ :: _ =>
      mkPage (app_state pg) (document_body pg) (next_node_id pg) (selection pg)
             (selected_text pg) (console pg) (timers pg)
  end.

(** [document.execCommand('copy')]: throws, or returns whether it copied. *)
Definition execCommand_copy_call (p : Platform) : M bool :=
  dom p ExecCommand
    (if execCommand_copy p then do! modify copy_selection in ret true
     else ret false).

Definition is_node (el : Element) (x : Element) : bool :=
  Nat.eqb (node_id x) (node_id el).

(** A selection held by the node [el] goes when the node is detached. *)
Definition drop_selection_of (el : Element) (pg : Page) : Page :=
  match selection pg with
  | Some (holder, _) =>
      if Nat.eqb holder (node_id el)
      then mkPage (app_state pg) (document_body pg) (next_node_id pg) None
                  (system_clipboard pg) (console pg) (timers pg)
      else pg
  | None => pg
  end.

(** [document.body.removeChild(el)]: a child is removed, and with it the
    selection it holds; anything else is a NotFoundError. *)
Definition removeChild (p : Platform) (el : Element) : M unit :=
  dom p RemoveChild (fun pg =>
    if existsb (is_node el) (document_body pg)
    then modify (fun pg =>
           drop_selection_of el
             (with_body (List.filter (fun x => negb (is_node el x))) pg)) pg
    else throw NotFoundError pg).

(** [await navigator.clipboard.writeText(text)], when the API exists. *)
Definition writeText (resolves : bool) (text : jsstring) : M unit :=
  if resolves
  then modify (fun pg =>
         mkPage (app_state pg) (document_body pg) (next_node_id pg) (selection pg)
                text (console pg) (timers pg))
  else throw WriteTextRejected.

(** ** autoCopyToClipboard *)

(** The modern API: [Some true] is the early [return true]; [None] means
    control reaches the fallback. *)
Definition clipboard_primary (p : Platform) (text : jsstring) : M (option bool) :=
  match clipboard_api p with
  | Some resolves =>
      try_catch (do! writeText resolves text in ret (Some true))
                (fun err => ret None)
  | None => ret None
  end.

(** The fallback: a temporary off-screen [<textarea>] and
    [execCommand('copy')]. *)
Definition clipboard_fallback (p : Platform) (text : jsstring) : M bool :=
  try_catch
    (let! tempTextArea := createElement p (lit "textarea") in
     let tempTextArea :=
       mkElement (node_id tempTextArea) (tagName tempTextArea) text
                 (lit "fixed") (lit "-9999px") in
     do! appendChild p tempTextArea in
     do! select p tempTextArea in
     do! execCommand_copy_call p in
     do! removeChild p tempTextArea in
     ret true)
    (fun err => ret false).

Definition autoCopyToClipboard (p : Platform) (text : jsstring) : M bool :=
  let! primary := clipboard_primary p text in
  match primary with
  | Some success => ret success
  | None => clipboard_fallback p text
  end.

(** The primary strategy fails when the API is missing or its write
    rejects. *)
Definition primary_fails (p : Platform) : bool :=
  match clipboard_api p with
  | Some true => false
  | _ => true
  end.

(** The fallback strategy throws when one of its DOM calls does. *)
Definition fallback_throws (p : Platform) : bool :=
  existsb (dom_throws p)
    [CreateElement; AppendChild; Select; ExecCommand; RemoveChild].

(** The fallback strategy fails when it throws or when the copy command
    reports, by returning [false], that nothing was copied. *)
Definition fallback_fails (p : Platform) : bool :=
  fallback_throws p || negb (execCommand_copy p).

(** Two pages with the same component state, console and timers. *)
Definition same_app (pg pg' : Page) : Prop :=
  app_state pg' = app_state pg /\ console pg' = console pg
  /\ timers pg' = timers pg.

(** Node identifiers in use are below the next one to be handed out. *)
Definition wf_page (pg : Page) : bool :=
  forallb (fun el => Nat.ltb (node_id el) (next_node_id pg)) (document_body pg).

(** ** Reading a batch of files *)

(** A [File] handle: its declared name, and what reading it as text will
    give, the text of the [load] event or the [error] event. *)
Record File := mkFile {
  name : jsstring;
  read_result : jsstring + error
}.

(** The state of one [Promise.all]: the result slots, the count of
    elements still to come, and the settlement once it has happened. *)
Record AllState := mkAllState {
  values : list (option FileRecord);
  remaining : nat;
  settled : option (result (list FileRecord))
}.

(** A promise settles once; later attempts are ignored. *)
Definition settle (r : result (list FileRecord)) (st : AllState) : AllState :=
  match settled st with
  | None => mkAllState (values st) (remaining st) (Some r)
  | Some _ => st
  end.

(** The element at [index] is fulfilled with [x]: the value goes to its
    own slot, whatever was fulfilled before, and the last one to arrive
    resolves the whole with the slots in index order. *)
Definition on_fulfilled (index : nat) (x : FileRecord) (st : AllState) : AllState :=
  match values st !! index with
  | Some None =>
      let st' := mkAllState (<[index := Some x]> (values st))
                            (Nat.pred (remaining st)) (settled st) in
      if Nat.eqb (remaining st') 0
      then settle (Ok (omap id (values st'))) st'
      else st'
  | _ => st
  end.

Definition on_rejected (e : error) (st : AllState) : AllState :=
  settle (Throw e) st.

(** The read of the file at [index] completes.  The mapped async callback
    [async (file) => { content = await readFileAsText(file); return
    { fileName: file.name, content } }] fulfils its promise with the
    record or rejects it with the read error. *)
Definition completion (fileArray : list File) (st : AllState) (index : nat) : AllState :=
  match fileArray !! index with
  | Some file =>
      match read_result file with
      | inl content => on_fulfilled index (mkFileRecord (name file) content) st
      | inr e => on_rejected e st
      end
  | None => st
  end.

(** [Promise.all(fileArray.map(...))], the reads completing in the order
    [order] (indices into [fileArray]).  [None]: still pending when the
    completions listed have been handled. *)
Definition all_init (fileArray : list File) : AllState :=
  let n := length fileArray in
  mkAllState (replicate n None) n (if Nat.eqb n 0 then Some (Ok []) else None).

Definition Promise_all (fileArray : list File) (order : list nat)
    : option (result (list FileRecord)) :=
  settled (fold_left (completion fileArray) order (all_init fileArray)).

Definition await {A} (promise : option (result A)) : M A :=
  fun pg =>
    match promise with
    | Some r => (r, pg)
    | None => (Suspended, pg)
    end.

Definition setFilesData (v : list FileRecord) : M unit :=
  modify (with_app (fun a =>
    mkAppState v (selectedExportFormat a) (isDragging a) (copyMessage a))).

Definition setCopyMessage (v : jsstring) : M unit :=
  modify (with_app (fun a =>
    mkAppState (filesData a) (selectedExportFormat a) (isDragging a) v)).

Definition setTimeout (action : timer_action) (delay : N) : M unit :=
  modify (fun pg =>
    mkPage (app_state pg) (document_body pg) (next_node_id pg) (selection pg)
           (system_clipboard pg) (console pg) (timers pg ++ [(delay, action)])).

Definition console_error (message : jsstring) (e : error) : M unit :=
  modify (fun pg =>
    mkPage (app_state pg) (document_body pg) (next_node_id pg) (selection pg)
           (system_clipboard pg) (console pg ++ [(message, e)]) (timers pg)).

(** [readAndSetFiles].  The handler is a closure over the [filesData] and
    [selectedExportFormat] of the render that created it; it is run here
    without other handlers in between. *)
Definition readAndSetFiles (p : Platform) (order : list nat)
    (fileArray : list File) : M unit :=
  let! filesData := gets (fun pg => filesData (app_state pg)) in
  let! selectedExportFormat :=
    gets (fun pg => selectedExportFormat (app_state pg)) in
  try_catch
    (let! results := await (Promise_all fileArray order) in
     let newData := filesData ++ results in
     do! setFilesData results in
     let exported := getExportOutput selectedExportFormat results in
     let! success := autoCopyToClipboard p exported in
     do! setCopyMessage (if success then lit "Copied to clipboard!"
                         else lit "Clipboard copy failed.") in
     setTimeout ClearCopyMessage 3000)
    (fun error => console_error (lit "Error reading files:") error).

(** What the page shows of the export: the [<pre>] with the export of the
    stored list, rendered only when the list is not empty. *)
Definition displayed_export (a : AppState) : option jsstring :=
  match filesData a with
  | [] => None
  | _ :: _ => Some (getExportOutput (selectedExportFormat a) (filesData a))
  end.

(** The record a file gives when its read succeeds. *)
Definition file_record (file : File) : option FileRecord :=
  match read_result file with
  | inl content => Some (mkFileRecord (name file) content)
  | inr _ => None
  end.

(** The state of the [Promise.all] while the reads in [done] have
    completed, all of them successfully, and others are still to come:
    not settled, the slots of [done] filled with their own records, the
    other slots empty. *)
Definition pending_after (fileArray : list File) (done : list nat)
    (st : AllState) : Prop :=
  length (values st) = length fileArray
  /\ remaining st = (length fileArray - length done)%nat
  /\ settled st = None
  /\ (forall j, In j done ->
        exists r, fileArray !! j ≫= file_record = Some r
                  /\ values st !! j = Some (Some r))
  /\ (forall j, (j < length fileArray)%nat -> ~ In j done ->
        values st !! j = Some None).

(** ** Sample inputs *)

Definition sample_records : list FileRecord :=
  [mkFileRecord (lit "a.txt") (lit "hi");
   mkFileRecord (lit "b.txt") [10; 34; 92; 233; 55357; 56832; 56832]].

Definition blank_page : Page :=
  mkPage (mkAppState [] (lit "json") false []) [] 0 None [] [] [].

(** No clipboard API, no DOM call throws, and the copy command reports
    that it copied nothing. *)
Definition denied_platform : Platform :=
  mkPlatform None (fun _ => false) false.

(** No clipboard API, and the copy command throws. *)
Definition throwing_platform : Platform :=
  mkPlatform None
    (fun call => match call with ExecCommand => true | _ => false end) false.

(** The temporary element the fallback builds for [text] on page [pg]. *)
Definition temp_textarea (text : jsstring) (pg : Page) : Element :=
  mkElement (next_node_id pg) (lit "textarea") text (lit "fixed") (lit "-9999px").

(** The clipboard writer resolves to [false] exactly when both strategies
    fail. *)
Definition false_iff_both_fail (p : Platform) (text : jsstring) (pg : Page) : Prop :=
  fst (autoCopyToClipboard p text pg) = Ok false
  <-> (primary_fails p = true /\ fallback_fails p = true).

(** After the call the document body is what it was before. *)
Definition body_restored (p : Platform) (text : jsstring) (pg : Page) : Prop :=
  document_body (snd (autoCopyToClipboard p text pg)) = document_body pg.

(** A batch whose first file is read slowly and whose second file is
    read fast: the read of index 1 completes before the read of index 0. *)
Definition slow_fast_batch : list File :=
  [mkFile (lit "first.txt") (inl (lit "slow"));
   mkFile (lit "second.txt") (inl (lit "fast"))].

Definition slow_fast_order : list nat := [1%nat; 0%nat].

(** A batch whose second file cannot be read. *)
Definition failing_batch : list File :=
  [mkFile (lit "a.txt") (inl (lit "hi"));
   mkFile (lit "b.txt") (inr (ReadError 1));
   mkFile (lit "c.txt") (inl (lit "ho"))].

(** A page that already stores and shows the records of an earlier batch. *)
Definition loaded_page : Page :=
  mkPage (mkAppState sample_records (lit "json") false []) [] 0 None [] [] [].

(** ** The remaining handlers of [App] *)

(** The part of a DOM event the handlers use: the two flags that
    [preventDefault] and [stopPropagation] set, and the file list it
    carries ([event.dataTransfer.files]). *)
Record DragEvent := mkDragEvent {
  defaultPrevented : bool;
  propagationStopped : bool;
  dataTransfer_files : list File
}.

Definition preventDefault (event : DragEvent) : DragEvent :=
  mkDragEvent true (propagationStopped event) (dataTransfer_files event).

Definition stopPropagation (event : DragEvent) : DragEvent :=
  mkDragEvent (defaultPrevented event) true (dataTransfer_files event).

Definition setIsDragging (v : bool) : M unit :=
  modify (with_app (fun a =>
    mkAppState (filesData a) (selectedExportFormat a) v (copyMessage a))).

Definition setSelectedExportFormat (v : jsstring) : M unit :=
  modify (with_app (fun a =>
    mkAppState (filesData a) v (isDragging a) (copyMessage a))).

(** [handleFileInputChange]: [files] is [event.target.files], [None] when
    it is null or undefined.  Nothing happens without at least one file. *)
Definition handleFileInputChange (p : Platform) (order : list nat)
    (files : option (list File)) : M unit :=
  match files with
  | None => ret tt
  | Some [] => ret tt
  | Some fileArray => readAndSetFiles p order fileArray
  end.

Definition handleDragOver (event : DragEvent) : M DragEvent :=
  let event := preventDefault event in
  let event := stopPropagation event in
  do! setIsDragging true in
  ret event.

Definition handleDragLeave (event : DragEvent) : M DragEvent :=
  let event := preventDefault event in
  let event := stopPropagation event in
  do! setIsDragging false in
  ret event.

(** [handleDrop]: the dropped list goes to [readAndSetFiles] as it is,
    empty or not. *)
Definition handleDrop (p : Platform) (order : list nat) (event : DragEvent)
    : M DragEvent :=
  let event := preventDefault event in
  let event := stopPropagation event in
  do! setIsDragging false in
  let droppedFiles := dataTransfer_files event in
  do! readAndSetFiles p order droppedFiles in
  ret event.

Definition clearFiles : M unit :=
  do! setFilesData [] in
  setCopyMessage [].

(** [copyManually]: the export of the stored list, as displayed. *)
Definition copyManually (p : Platform) : M unit :=
  let! filesData := gets (fun pg => filesData (app_state pg)) in
  let! selectedExportFormat :=
    gets (fun pg => selectedExportFormat (app_state pg)) in
  let textToCopy := getExportOutput selectedExportFormat filesData in
  let! success := autoCopyToClipboard p textToCopy in
  do! (if success
       then setCopyMessage (lit "Copied to clipboard (manual)!")
       else setCopyMessage (lit "Manual copy failed or was blocked in Firefox.")) in
  setTimeout ClearCopyMessage 3000.

(** The callback of a timer: [() => setCopyMessage('')]. *)
Definition run_timer (action : timer_action) : M unit :=
  match action with
  | ClearCopyMessage => setCopyMessage []
  end.

(** The oldest pending timer fires.  All timers of the component have the
    same delay, so they fire in the order they were set. *)
Definition fire_next_timer : M unit :=
  fun pg =>
    match timers pg with
    | [] => (Ok tt, pg)
    | (_, action) :: rest =>
        run_timer action
          (mkPage (app_state pg) (document_body pg) (next_node_id pg)
                  (selection pg) (system_clipboard pg) (console pg) rest)
    end.

(** ** Measures used in the statements *)

Definition is_reserved (c : code_unit) : bool :=
  existsb (N.eqb c) [ch_amp; ch_lt; ch_gt; ch_quot; ch_apos].

(** How often the code unit [c] occurs in [s]. *)
Fixpoint occurrences (c : code_unit) (s : jsstring) : nat :=
  match s with
  | [] => O
  | x :: s' => if x =? c then S (occurrences c s') else occurrences c s'
  end.

(** The status message the automatic copy leaves. *)
Definition auto_copy_message (success : bool) : jsstring :=
  if success then lit "Copied to clipboard!" else lit "Clipboard copy failed.".

(** The status message the manual copy leaves. *)
Definition manual_copy_message (success : bool) : jsstring :=
  if success then lit "Copied to clipboard (manual)!"
  else lit "Manual copy failed or was blocked in Firefox.".

(** A batch of two unreadable files. *)
Definition two_failures_batch : list File :=
  [mkFile (lit "a.txt") (inr (ReadError 1));
   mkFile (lit "b.txt") (inr (ReadError 2))].

(** A platform whose clipboard API works. *)
Definition modern_platform : Platform :=
  mkPlatform (Some true) (fun _ => false) true.

(** A platform without clipboard API whose copy command works. *)
Definition legacy_platform : Platform :=
  mkPlatform None (fun _ => false) true.

(** * Theorems *)

(** ** XML escaping *)

Ltac flatten_app := repeat (progress (rewrite <- ?app_assoc; cbn [app])).

Lemma replace_char_app c rep a b :
  replace_char c rep (a ++ b) = replace_char c rep a ++ replace_char c rep b.
Proof. unfold replace_char. apply flat_map_app. Qed.

Lemma escapeContent_app a b :
  escapeContent (a ++ b) = escapeContent a ++ escapeContent b.
Proof. unfold escapeContent. now rewrite !replace_char_app. Qed.

Ltac case_unit x c :=
  let E := fresh "E" in
  destruct (N.eqb_spec x c) as [E|E]; [subst x | idtac].

Ltac split_reserved x :=
  case_unit x ch_amp; [|case_unit x ch_lt; [|case_unit x ch_gt;
    [|case_unit x ch_quot; [|case_unit x ch_apos]]]].

Lemma eqb_ne (x c : N) : x <> c -> (x =? c) = false.
Proof. apply N.eqb_neq. Qed.

Lemma eqb_ne' (x c : N) : x <> c -> (c =? x) = false.
Proof. intros H. apply N.eqb_neq. congruence. Qed.

Ltac unreserved :=
  unfold ch_amp, ch_lt, ch_gt, ch_quot, ch_apos in *;
  repeat match goal with
  | H : ?x <> ?c |- context [?x =? ?c] => rewrite (eqb_ne x c H)
  | H : ?x <> ?c |- context [?c =? ?x] => rewrite (eqb_ne' x c H)
  end.

Lemma escapeContent_unit x : escapeContent [x] = escape_unit x.
Proof.
  split_reserved x; try reflexivity.
  unfold escapeContent, escape_unit, replace_char. cbn [flat_map app].
  unreserved. cbn [flat_map app]. unreserved. cbn [flat_map app]. unreserved.
  cbn [flat_map app]. unreserved. cbn [flat_map app]. unreserved. reflexivity.
Qed.

(** Chaining the five replacements, ampersand first, is the simultaneous
    substitution of each reserved character by its reference. *)
Lemma escapeContent_flat_map s : escapeContent s = flat_map escape_unit s.
Proof.
  induction s as [|x s IH]; [reflexivity|].
  change (x :: s) with ([x] ++ s).
  rewrite escapeContent_app, escapeContent_unit, IH. reflexivity.
Qed.

Lemma escape_unit_first x : escape_unit x = escape_first 5 x.
Proof. reflexivity. Qed.

Lemma escape_first_0 s : flat_map (escape_first 0) s = s.
Proof. induction s as [|x s IH]; [reflexivity|]. cbn. now rewrite IH. Qed.

(** The escaped text has no raw reserved character. *)
Lemma no_raw_reserved_escaped s :
  no_raw_reserved (flat_map escape_unit s) = true.
Proof.
  induction s as [|x s IH]; [reflexivity|].
  cbn [flat_map]. split_reserved x; try (cbn; exact IH).
  unfold escape_unit. unreserved. cbn [app no_raw_reserved existsb].
  unreserved. cbn. exact IH.
Qed.

(** A code unit that differs from the first one of the pattern is copied. *)
Lemma replace_all_other c p rep x s :
  x <> c ->
  replace_all (c :: p) rep (x :: s) = x :: replace_all (c :: p) rep s.
Proof.
  intros H. cbn [replace_all replace_from is_prefix].
  rewrite (eqb_ne' x c H). reflexivity.
Qed.

(** Undoing one substitution: the reference of rule [k] is replaced back,
    and no other text of the escape is touched. *)
Ltac undo_stage s :=
  induction s as [|x s IH]; [reflexivity|];
  cbn [flat_map]; split_reserved x;
  try (cbn; repeat f_equal; exact IH);
  unfold escape_first at 1 3; cbn [firstn escape_rules escape_with];
  unreserved; cbn [app];
  match goal with |- replace_all ?e _ _ = _ => unfold e end;
  rewrite replace_all_other by assumption; f_equal; exact IH.

Lemma undo_apos s :
  replace_all ent_apos [ch_apos] (flat_map (escape_first 5) s)
  = flat_map (escape_first 4) s.
Proof. undo_stage s. Qed.

Lemma undo_quot s :
  replace_all ent_quot [ch_quot] (flat_map (escape_first 4) s)
  = flat_map (escape_first 3) s.
Proof. undo_stage s. Qed.

Lemma undo_gt s :
  replace_all ent_gt [ch_gt] (flat_map (escape_first 3) s)
  = flat_map (escape_first 2) s.
Proof. undo_stage s. Qed.

Lemma undo_lt s :
  replace_all ent_lt [ch_lt] (flat_map (escape_first 2) s)
  = flat_map (escape_first 1) s.
Proof. undo_stage s. Qed.

Lemma undo_amp s :
  replace_all ent_amp [ch_amp] (flat_map (escape_first 1) s)
  = flat_map (escape_first 0) s.
Proof. undo_stage s. Qed.

Lemma unescape_escape s : unescapeContent (escapeContent s) = s.
Proof.
  unfold unescapeContent.
  rewrite escapeContent_flat_map.
  rewrite (flat_map_ext escape_unit (escape_first 5)) by (intros; apply escape_unit_first).
  rewrite undo_apos, undo_quot, undo_gt, undo_lt, undo_amp.
  apply escape_first_0.
Qed.

(** What [no_raw_reserved] says, position by position. *)
Lemma no_raw_reserved_markup s r :
  no_raw_reserved s = true -> In r s ->
  r <> ch_lt /\ r <> ch_gt /\ r <> ch_quot /\ r <> ch_apos.
Proof.
  induction s as [|c s IH]; [intros _ []|].
  cbn [no_raw_reserved]. intros H [->|Hin].
  - apply andb_prop in H as [H _].
    case_unit r ch_amp; [repeat split; discriminate|].
    unreserved. cbn [existsb] in H.
    rewrite !negb_orb, !andb_true_iff, !negb_true_iff, !N.eqb_neq in H.
    tauto.
  - apply andb_prop in H as [_ H]. auto.
Qed.

Lemma no_raw_reserved_amp s pre post :
  no_raw_reserved s = true -> s = pre ++ ch_amp :: post ->
  exists e, In e entities /\ is_prefix e (ch_amp :: post) = true.
Proof.
  revert s. induction pre as [|c pre IH]; intros s H ->.
  - cbn [app no_raw_reserved] in H. rewrite N.eqb_refl in H.
    apply andb_prop in H as [H _].
    apply existsb_exists in H. exact H.
  - cbn [app no_raw_reserved] in H. apply andb_prop in H as [_ H].
    eapply IH; [exact H|reflexivity].
Qed.

(** The export is the opening tag, one [<file>] element per record in
    input order, and the closing tag on a line of its own. *)
Lemma convertToXML_elements filesData :
  convertToXML filesData
  = lit "<files>" ++ concat (map xml_element filesData) ++ ch_lf :: lit "</files>".
Proof.
  unfold convertToXML. generalize (lit "<files>") as acc.
  induction filesData as [|f fs IH]; intros acc; cbn [fold_left map concat].
  - now rewrite app_nil_l.
  - rewrite IH. now rewrite <- !app_assoc.
Qed.

(** C1. For every list of records the XML converter produces, for each
    record, an element whose body (the text between the start tag with
    the name and the end tag) is the content escaped by the five
    replacements chained in the order [&], [<], [>], double quote, ['].
    For every content string that body has no raw reserved character
    ([no_raw_reserved]: the four characters other than the ampersand do
    not occur at all, and every ampersand starts one of the five entity
    references), and undoing the five substitutions on it gives the
    content back exactly. *)
Theorem xml_escape_roundtrip (filesData : list FileRecord) (c : jsstring) :
  convertToXML filesData
  = lit "<files>"
      ++ concat (map (fun file =>
           ch_lf :: lit "  <file name=" ++ [ch_quot] ++ fileName file
             ++ [ch_quot; ch_gt]
             ++ replace_char ch_apos ent_apos (replace_char ch_quot ent_quot
                  (replace_char ch_gt ent_gt (replace_char ch_lt ent_lt
                    (replace_char ch_amp ent_amp (content file)))))
             ++ lit "</file>") filesData)
      ++ ch_lf :: lit "</files>"
  /\ convertToXML [mkFileRecord [] c]
     = lit "<files>" ++ ch_lf :: lit "  <file name=" ++ [ch_quot; ch_quot; ch_gt]
         ++ escapeContent c ++ lit "</file>" ++ ch_lf :: lit "</files>"
  /\ escapeContent c
    = replace_char ch_apos ent_apos (replace_char ch_quot ent_quot
        (replace_char ch_gt ent_gt (replace_char ch_lt ent_lt
          (replace_char ch_amp ent_amp c))))
  /\ no_raw_reserved (escapeContent c) = true
  /\ unescapeContent (escapeContent c) = c.
Proof.
  split; [apply convertToXML_elements|].
  split; [rewrite convertToXML_elements; cbn [map concat]; unfold xml_element;
          cbn [fileName content]; flatten_app; reflexivity|].
  split; [reflexivity|]. split.
  - rewrite escapeContent_flat_map. apply no_raw_reserved_escaped.
  - apply unescape_escape.
Qed.

(** The same, occurrence by occurrence. *)
Lemma escaped_markup_free c r :
  In r (escapeContent c) ->
  r <> ch_lt /\ r <> ch_gt /\ r <> ch_quot /\ r <> ch_apos.
Proof.
  apply no_raw_reserved_markup.
  rewrite escapeContent_flat_map. apply no_raw_reserved_escaped.
Qed.

Lemma escaped_amp_starts_entity c pre post :
  escapeContent c = pre ++ ch_amp :: post ->
  exists e, In e entities /\ is_prefix e (ch_amp :: post) = true.
Proof.
  apply no_raw_reserved_amp.
  rewrite escapeContent_flat_map. apply no_raw_reserved_escaped.
Qed.

Example xml_escape_all_five :
  escapeContent (lit "a&b<c>d" ++ [ch_quot; ch_apos])
  = lit "a&amp;b&lt;c&gt;d&quot;&apos;".
Proof. reflexivity. Qed.

(** Why the ampersand goes first: replaced after [<], it would escape
    the ampersand of the reference just produced. *)
Example xml_escape_ampersand_last :
  replace_char ch_amp ent_amp (replace_char ch_lt ent_lt (lit "<"))
  = lit "&amp;lt;"
  /\ escapeContent (lit "<") = lit "&lt;".
Proof. split; reflexivity. Qed.

(** Undoing must run last to first as well: with the ampersand undone
    first, escaped text that spells a reference would be decoded twice. *)
Example unescape_ampersand_first :
  replace_all ent_lt [ch_lt] (replace_all ent_amp [ch_amp] (escapeContent (lit "&lt;")))
  = lit "<"
  /\ unescapeContent (escapeContent (lit "&lt;")) = lit "&lt;".
Proof. split; reflexivity. Qed.

Example xml_escape_entity_text :
  escapeContent (lit "&lt;") = lit "&amp;lt;"
  /\ unescapeContent (lit "&amp;lt;") = lit "&lt;".
Proof. split; reflexivity. Qed.

(** ** JSON strings *)

Lemma hex_value_digit d : d < 16 -> hex_value (hex_digit d) = Some d.
Proof.
  intros H.
  assert (E : d = 0 \/ d = 1 \/ d = 2 \/ d = 3 \/ d = 4 \/ d = 5 \/ d = 6
    \/ d = 7 \/ d = 8 \/ d = 9 \/ d = 10 \/ d = 11 \/ d = 12 \/ d = 13
    \/ d = 14 \/ d = 15) by lia.
  repeat (destruct E as [->|E]; [reflexivity|]). subst d. reflexivity.
Qed.

Lemma hex4_value_escape c :
  c < 65536 ->
  hex4_value (hex_digit (c / 4096 mod 16)) (hex_digit (c / 256 mod 16))
             (hex_digit (c / 16 mod 16)) (hex_digit (c mod 16)) = Some c.
Proof.
  intros H. unfold hex4_value.
  rewrite !hex_value_digit by (apply N.mod_lt; discriminate).
  f_equal. zify. Z.to_euclidean_division_equations. lia.
Qed.

Lemma wf_unit_lt c : wf_unit c = true -> c < 65536.
Proof. unfold wf_unit. apply N.ltb_lt. Qed.

(** The parser reads a [\uXXXX] escape back as the code unit. *)
Lemma parse_chars_escape c x :
  wf_unit c = true ->
  parse_chars (unicode_escape c ++ x) = push_unit c (parse_chars x).
Proof.
  intros H%wf_unit_lt. unfold unicode_escape.
  cbn [app parse_chars]. change (92 =? 34) with false.
  change (92 =? 92) with true. change (117 =? 117) with true.
  cbv iota. now rewrite hex4_value_escape.
Qed.

(** A code unit that needs no escape is read back as itself. *)
Lemma parse_chars_plain c x :
  c <> 34 -> c <> 92 -> 32 <= c ->
  parse_chars (c :: x) = push_unit c (parse_chars x).
Proof.
  intros H1 H2 H3. cbn [parse_chars].
  rewrite (eqb_ne _ _ H1), (eqb_ne _ _ H2).
  destruct (N.ltb_spec c 32); [lia|reflexivity].
Qed.

Lemma parse_chars_unit c x :
  wf_unit c = true ->
  parse_chars (quote_unit c ++ x) = push_unit c (parse_chars x).
Proof.
  intros H. unfold quote_unit.
  case_unit c 8; [reflexivity|]. case_unit c 9; [reflexivity|].
  case_unit c 10; [reflexivity|]. case_unit c 12; [reflexivity|].
  case_unit c 13; [reflexivity|]. case_unit c 34; [reflexivity|].
  case_unit c 92; [reflexivity|].
  destruct ((c <? 32) || is_high_surrogate c || is_low_surrogate c) eqn:Hesc.
  - now apply parse_chars_escape.
  - rewrite !orb_false_iff in Hesc. destruct Hesc as [[Hc _] _].
    apply N.ltb_ge in Hc. now apply parse_chars_plain.
Qed.

Lemma surrogate_plain c :
  is_high_surrogate c = true \/ is_low_surrogate c = true ->
  c <> 34 /\ c <> 92 /\ 32 <= c.
Proof.
  unfold is_high_surrogate, is_low_surrogate.
  rewrite !andb_true_iff, !N.leb_le. lia.
Qed.

(** Reading a quoted string back: every well-formed string, whatever it
    holds, is recovered exactly, and the input after the closing quote is
    left. *)
Lemma parse_chars_quote_units s rest :
  wf_string s = true ->
  parse_chars (quote_units s ++ 34 :: rest) = Some (s, rest).
Proof.
  remember (length s) as n eqn:Hn.
  revert s Hn. induction (lt_wf n) as [n _ IH]. intros s -> Hwf.
  destruct s as [|c r]; [reflexivity|].
  cbn [wf_string forallb] in Hwf. apply andb_prop in Hwf as [Hc Hr].
  assert (IHr : parse_chars (quote_units r ++ 34 :: rest) = Some (r, rest)).
  { apply (IH (length r)); [cbn; lia|reflexivity|exact Hr]. }
  cbn [quote_units].
  destruct (is_high_surrogate c) eqn:Hhigh.
  - destruct r as [|d r'].
    + rewrite parse_chars_escape by exact Hc. reflexivity.
    + destruct (is_low_surrogate d) eqn:Hlow.
      * cbn [wf_string forallb] in Hr. apply andb_prop in Hr as [Hd Hr'].
        destruct (surrogate_plain c (or_introl Hhigh)) as (? & ? & ?).
        destruct (surrogate_plain d (or_intror Hlow)) as (? & ? & ?).
        cbn [app]. rewrite !parse_chars_plain by assumption.
        rewrite (IH (length r')); [reflexivity|cbn; lia|reflexivity|exact Hr'].
      * rewrite <- app_assoc, parse_chars_escape by exact Hc.
        now rewrite IHr.
  - rewrite <- app_assoc, parse_chars_unit by exact Hc. now rewrite IHr.
Qed.

Lemma parse_chars_QuoteJSONString s rest :
  wf_string s = true ->
  parse_chars (tl (QuoteJSONString s ++ rest)) = Some (s, rest).
Proof.
  intros H. unfold QuoteJSONString. cbn [app tl].
  rewrite <- app_assoc. now apply parse_chars_quote_units.
Qed.

(** ** JSON values *)

Lemma json_nested_ind (P : json -> Prop) :
  P JNull -> (forall b, P (JBool b)) -> (forall s, P (JString s)) ->
  (forall es, Forall P es -> P (JArray es)) ->
  (forall kvs, Forall (fun kv => P (snd kv)) kvs -> P (JObject kvs)) ->
  forall v, P v.
Proof.
  intros Hnull Hbool Hstr Harr Hobj.
  fix IH 1. intros [| b | s | es | kvs].
  - exact Hnull.
  - apply Hbool.
  - apply Hstr.
  - apply Harr. induction es as [|e es IHes]; constructor; [apply IH|exact IHes].
  - apply Hobj. induction kvs as [|[k v] kvs IHkvs]; constructor;
      [apply IH|exact IHkvs].
Qed.

Lemma skip_ws_app w s : all_ws w = true -> skip_ws (w ++ s) = skip_ws s.
Proof.
  induction w as [|c w IH]; [reflexivity|].
  cbn [all_ws forallb app skip_ws]. intros [Hc Hw]%andb_prop.
  rewrite Hc. now apply IH.
Qed.

Lemma skip_ws_stop c s : is_json_ws c = false -> skip_ws (c :: s) = c :: s.
Proof. intros H. cbn [skip_ws]. now rewrite H. Qed.

Lemma parse_value_ws fuel w s :
  all_ws w = true -> parse_value fuel (w ++ s) = parse_value fuel s.
Proof.
  intros H. destruct fuel; [reflexivity|].
  cbn [parse_value]. now rewrite skip_ws_app.
Qed.

Lemma parse_members_ws fuel w s :
  all_ws w = true -> parse_members fuel (w ++ s) = parse_members fuel s.
Proof.
  intros H. destruct fuel; [reflexivity|].
  cbn [parse_members]. now rewrite skip_ws_app.
Qed.

Lemma parse_elements_ws fuel w s :
  all_ws w = true -> parse_elements fuel (w ++ s) = parse_elements fuel s.
Proof.
  intros H. destruct fuel; [reflexivity|].
  cbn [parse_elements]. now rewrite parse_value_ws.
Qed.

Lemma serialize_opens gap indent v :
  exists c t, serialize gap indent v = c :: t /\ opens_value c = true.
Proof.
  destruct v as [| [|] | s | [|e es] | [|kv kvs]];
    try (eexists _, _; split; [reflexivity|reflexivity]).
  - cbn [serialize]. destruct gap; eexists _, _; (split; [reflexivity|reflexivity]).
  - cbn [serialize]. destruct gap; eexists _, _; (split; [reflexivity|reflexivity]).
Qed.

Lemma opens_value_facts c :
  opens_value c = true ->
  is_json_ws c = false /\ (c =? 93) = false /\ (c =? 125) = false
  /\ (c =? 44) = false.
Proof.
  unfold opens_value. cbn [existsb]. rewrite !orb_true_iff, !N.eqb_eq.
  intros H. repeat destruct H as [H|H]; try discriminate; subst c;
    repeat split; reflexivity.
Qed.

Lemma all_ws_app a b : all_ws (a ++ b) = all_ws a && all_ws b.
Proof. apply forallb_app. Qed.

(** The layout of a non-empty array and of a non-empty object: brackets,
    commas, and white space [w1], [w2], [w3] that depends on the gap. *)
Lemma serialize_array_shape gap indent e es :
  all_ws gap = true -> all_ws indent = true ->
  exists w1 w2, all_ws w1 = true /\ all_ws w2 = true /\
    serialize gap indent (JArray (e :: es))
    = 91 :: w1 ++ join (44 :: w1) (map (serialize gap (indent ++ gap)) (e :: es))
         ++ w2 ++ [93].
Proof.
  intros Hgap Hind. destruct gap as [|g gap].
  - exists [], []. repeat split; reflexivity.
  - exists (10 :: indent ++ g :: gap), (10 :: indent).
    split; [|split; [|reflexivity]].
    + change (all_ws ([10] ++ indent ++ g :: gap) = true).
      now rewrite !all_ws_app, Hind, Hgap.
    + change (all_ws ([10] ++ indent) = true). now rewrite all_ws_app, Hind.
Qed.

Lemma serialize_object_shape gap indent kv kvs :
  all_ws gap = true -> all_ws indent = true ->
  exists w1 w2 w3, all_ws w1 = true /\ all_ws w2 = true /\ all_ws w3 = true /\
    serialize gap indent (JObject (kv :: kvs))
    = 123 :: w1 ++ join (44 :: w1)
                     (map (member_text gap (indent ++ gap) w3) (kv :: kvs))
          ++ w2 ++ [125].
Proof.
  intros Hgap Hind. destruct gap as [|g gap].
  - exists [], [], []. repeat split; reflexivity.
  - exists (10 :: indent ++ g :: gap), (10 :: indent), [32].
    split; [|split; [|split; [reflexivity|reflexivity]]].
    + change (all_ws ([10] ++ indent ++ g :: gap) = true).
      now rewrite !all_ws_app, Hind, Hgap.
    + change (all_ws ([10] ++ indent) = true). now rewrite all_ws_app, Hind.
Qed.

Lemma join_cons2 (sep x y : jsstring) rest :
  join sep (x :: y :: rest) = x ++ sep ++ join sep (y :: rest).
Proof. reflexivity. Qed.

(** A comma-separated run of element texts, closed by a bracket. *)
Lemma parse_elements_join (txt : json -> jsstring) w1 w2 :
  all_ws w1 = true -> all_ws w2 = true ->
  forall es e fuel rest,
    Forall (parses_back txt) (e :: es) ->
    (list_sum (map (fun v => S (cost v)) (e :: es)) <= fuel)%nat ->
    parse_elements fuel
      (w1 ++ join (44 :: w1) (map txt (e :: es)) ++ w2 ++ 93 :: rest)
    = Some (e :: es, rest).
Proof.
  intros Hw1 Hw2. induction es as [|e' es IH]; intros e fuel rest Hall Hfuel.
  - apply Forall_inv in Hall. cbn [map list_sum fold_right] in Hfuel.
    destruct fuel as [|fuel]; [lia|]. cbn [parse_elements map join].
    rewrite parse_value_ws by exact Hw1.
    rewrite Hall by lia. rewrite skip_ws_app by exact Hw2.
    reflexivity.
  - pose proof (Forall_inv Hall) as He. apply Forall_inv_tail in Hall.
    cbn [map list_sum fold_right] in Hfuel.
    destruct fuel as [|fuel]; [lia|]. cbn [parse_elements].
    rewrite parse_value_ws by exact Hw1.
    cbn [map]. rewrite join_cons2, <- !app_assoc.
    rewrite He by lia. cbn [app].
    rewrite skip_ws_stop by reflexivity.
    change (44 =? 44) with true. cbv iota.
    change (txt e' :: map txt es) with (map txt (e' :: es)).
    rewrite IH; [reflexivity|exact Hall|cbn [map list_sum fold_right]; lia].
Qed.

(** A comma-separated run of member texts, closed by a brace. *)
Lemma parse_members_join (txt : json -> jsstring) w1 w2 w3 :
  all_ws w1 = true -> all_ws w2 = true -> all_ws w3 = true ->
  forall kvs kv fuel rest,
    Forall (fun kv => wf_string (fst kv) = true /\ parses_back txt (snd kv))
           (kv :: kvs) ->
    (list_sum (map (fun kv => S (cost (snd kv))) (kv :: kvs)) <= fuel)%nat ->
    parse_members fuel
      (w1 ++ join (44 :: w1)
               (map (fun kv => QuoteJSONString (fst kv) ++ 58 :: w3 ++ txt (snd kv))
                    (kv :: kvs))
          ++ w2 ++ 125 :: rest)
    = Some (kv :: kvs, rest).
Proof.
  intros Hw1 Hw2 Hw3.
  induction kvs as [|kv' kvs IH]; intros [k v] fuel rest Hall Hfuel;
    pose proof (Forall_inv Hall) as [Hk Hv]; apply Forall_inv_tail in Hall;
    cbn [fst snd] in Hk, Hv; cbn [map list_sum fold_right fst snd] in Hfuel;
    (destruct fuel as [|fuel]; [lia|]); cbn [parse_members];
    rewrite skip_ws_app by exact Hw1.
  - cbn [map join fst snd]. unfold QuoteJSONString.
    rewrite <- ?app_assoc. cbn [app]. rewrite <- ?app_assoc.
    rewrite skip_ws_stop by reflexivity. change (34 =? 34) with true. cbv iota.
    rewrite parse_chars_quote_units by exact Hk.
    rewrite skip_ws_stop by reflexivity. change (58 =? 58) with true. cbv iota.
    rewrite (parse_value_ws _ w3) by exact Hw3. rewrite Hv by lia.
    rewrite skip_ws_app by exact Hw2. reflexivity.
  - cbn [map]. rewrite join_cons2. cbn [fst snd]. unfold QuoteJSONString at 1.
    rewrite <- ?app_assoc. cbn [app]. rewrite <- ?app_assoc.
    rewrite skip_ws_stop by reflexivity. change (34 =? 34) with true. cbv iota.
    rewrite parse_chars_quote_units by exact Hk.
    rewrite skip_ws_stop by reflexivity. change (58 =? 58) with true. cbv iota.
    rewrite (parse_value_ws _ w3) by exact Hw3. rewrite Hv by lia.
    rewrite skip_ws_stop by reflexivity. change (44 =? 44) with true. cbv iota.
    match goal with |- context [join _ (?a :: map ?f kvs)] =>
      change (a :: map f kvs) with (map f (kv' :: kvs)) end.
    rewrite IH; [reflexivity|exact Hall|cbn [map list_sum fold_right]; lia].
Qed.

Lemma join_starts (sep x : jsstring) xs : exists t, join sep (x :: xs) = x ++ t.
Proof.
  destruct xs as [|y xs].
  - exists []. cbn [join]. now rewrite app_nil_r.
  - eexists. apply join_cons2.
Qed.

Lemma parse_value_array fuel r c t :
  skip_ws r = c :: t -> (c =? 93) = false ->
  parse_value (S fuel) (91 :: r)
  = match parse_elements fuel r with
    | Some (vs, rest) => Some (JArray vs, rest)
    | None => None
    end.
Proof.
  intros Hr Hc. cbn [parse_value]. rewrite skip_ws_stop by reflexivity.
  change (91 =? 34) with false. change (91 =? 91) with true. cbv iota.
  now rewrite Hr, Hc.
Qed.

Lemma parse_value_object fuel r c t :
  skip_ws r = c :: t -> (c =? 125) = false ->
  parse_value (S fuel) (123 :: r)
  = match parse_members fuel r with
    | Some (kvs, rest) => Some (JObject kvs, rest)
    | None => None
    end.
Proof.
  intros Hr Hc. cbn [parse_value]. rewrite skip_ws_stop by reflexivity.
  change (123 =? 34) with false. change (123 =? 91) with false.
  change (123 =? 123) with true. cbv iota.
  now rewrite Hr, Hc.
Qed.

Lemma parse_value_string fuel s rest :
  wf_string s = true ->
  parse_value (S fuel) (QuoteJSONString s ++ rest) = Some (JString s, rest).
Proof.
  intros H. unfold QuoteJSONString. rewrite <- !app_assoc. cbn [app parse_value].
  rewrite skip_ws_stop by reflexivity. change (34 =? 34) with true. cbv iota.
  now rewrite parse_chars_quote_units.
Qed.

(** Parsing inverts serialization: for every gap of white space, every
    indentation and every value with well-formed strings, the parser reads
    the text of the value back and leaves the input that follows it. *)
Theorem parse_serialize gap :
  all_ws gap = true ->
  forall v, wf_json v = true ->
  forall indent, all_ws indent = true ->
  parses_back (serialize gap indent) v.
Proof.
  intros Hgap v.
  induction v as [| b | s | es IH | kvs IH] using json_nested_ind;
    intros Hwf indent Hind fuel rest Hfuel;
    (destruct fuel as [|fuel]; [cbn in Hfuel; lia|]).
  - reflexivity.
  - destruct b; reflexivity.
  - now apply parse_value_string.
  - destruct es as [|e es]; [reflexivity|].
    destruct (serialize_array_shape gap indent e es Hgap Hind)
      as (w1 & w2 & Hw1 & Hw2 & ->).
    assert (Hind' : all_ws (indent ++ gap) = true)
      by now rewrite all_ws_app, Hind, Hgap.
    destruct (join_starts (44 :: w1) (serialize gap (indent ++ gap) e)
                (map (serialize gap (indent ++ gap)) es)) as [t Ht].
    destruct (serialize_opens gap (indent ++ gap) e) as (c & t' & Hc & Hopen).
    apply opens_value_facts in Hopen as (Hws & Hc93 & _ & _).
    cbn [app]. rewrite <- !app_assoc.
    rewrite (parse_value_array fuel _ c (t' ++ t ++ w2 ++ [93] ++ rest)).
    + cbn [app]. rewrite parse_elements_join; [reflexivity|exact Hw1|exact Hw2| |].
      * apply List.Forall_forall. intros x Hx.
        apply (proj1 (List.Forall_forall _ _) IH x Hx); [|exact Hind'].
        cbn [wf_json] in Hwf. now apply (proj1 (forallb_forall _ _) Hwf).
      * cbn [cost] in Hfuel. lia.
    + rewrite skip_ws_app by exact Hw1. cbn [map] in Ht |- *.
      rewrite Ht, Hc. cbn [app]. rewrite skip_ws_stop by exact Hws.
      now rewrite <- !app_assoc.
    + exact Hc93.
  - destruct kvs as [|kv kvs]; [reflexivity|].
    destruct (serialize_object_shape gap indent kv kvs Hgap Hind)
      as (w1 & w2 & w3 & Hw1 & Hw2 & Hw3 & ->).
    assert (Hind' : all_ws (indent ++ gap) = true)
      by now rewrite all_ws_app, Hind, Hgap.
    destruct (join_starts (44 :: w1) (member_text gap (indent ++ gap) w3 kv)
                (map (member_text gap (indent ++ gap) w3) kvs)) as [t Ht].
    cbn [app]. rewrite <- !app_assoc.
    rewrite (parse_value_object fuel _ 34
               (quote_units (fst kv) ++ [34] ++ 58 :: w3
                  ++ serialize gap (indent ++ gap) (snd kv)
                  ++ t ++ w2 ++ [125] ++ rest)).
    + cbn [app]. unfold member_text.
      rewrite (parse_members_join (serialize gap (indent ++ gap)));
        [reflexivity|exact Hw1|exact Hw2|exact Hw3| |].
      * apply List.Forall_forall. intros x Hx. cbn [wf_json] in Hwf.
        apply (proj1 (forallb_forall _ _) Hwf) in Hx as Hwfx.
        apply andb_prop in Hwfx as [Hk Hv]. split; [exact Hk|].
        apply (proj1 (List.Forall_forall _ _) IH x Hx); [exact Hv|exact Hind'].
      * cbn [cost] in Hfuel. lia.
    + rewrite skip_ws_app by exact Hw1. cbn [map] in Ht |- *.
      rewrite Ht. unfold member_text, QuoteJSONString.
      rewrite <- !app_assoc. cbn [app]. rewrite skip_ws_stop by reflexivity.
      now rewrite <- !app_assoc.
    + reflexivity.
Qed.

(** The text of a value is at least as long as the fuel it needs. *)
Lemma join_cost {A} (txt : A -> jsstring) (b : A -> nat) c sep xs :
  Forall (fun x => (b x <= length (txt x))%nat) xs ->
  (list_sum (map (fun x => S (b x)) xs)
   <= S (length (join (c :: sep) (map txt xs))))%nat.
Proof.
  induction 1 as [|x xs Hx Hxs IH]; [cbn; lia|].
  destruct xs as [|y xs].
  - cbn [map list_sum fold_right join]. lia.
  - cbn [map] in IH |- *. rewrite join_cons2, !length_app.
    cbn [list_sum fold_right length] in IH |- *. lia.
Qed.

Lemma cost_le_length gap v :
  all_ws gap = true ->
  forall indent, all_ws indent = true ->
  (cost v <= length (serialize gap indent v))%nat.
Proof.
  intros Hgap.
  induction v as [| b | s | es IH | kvs IH] using json_nested_ind;
    intros indent Hind.
  - cbn. lia.
  - destruct b; cbn; lia.
  - cbn [cost serialize]. unfold QuoteJSONString. rewrite !length_app. cbn. lia.
  - destruct es as [|e es]; [cbn; lia|].
    destruct (serialize_array_shape gap indent e es Hgap Hind)
      as (w1 & w2 & _ & _ & ->).
    assert (Hind' : all_ws (indent ++ gap) = true)
      by now rewrite all_ws_app, Hind, Hgap.
    cbn [cost length]. rewrite !length_app.
    pose proof (join_cost (serialize gap (indent ++ gap)) cost 44 w1 (e :: es)) as H.
    cbn [length]. apply Nat.le_trans with (S (S (length
      (join (44 :: w1) (map (serialize gap (indent ++ gap)) (e :: es)))))); [|lia].
    apply le_n_S, H. eapply Forall_impl; [exact IH|].
    intros x Hx. now apply Hx.
  - destruct kvs as [|kv kvs]; [cbn; lia|].
    destruct (serialize_object_shape gap indent kv kvs Hgap Hind)
      as (w1 & w2 & w3 & _ & _ & _ & ->).
    assert (Hind' : all_ws (indent ++ gap) = true)
      by now rewrite all_ws_app, Hind, Hgap.
    cbn [cost length]. rewrite !length_app.
    pose proof (join_cost (member_text gap (indent ++ gap) w3)
                  (fun kv => cost (snd kv)) 44 w1 (kv :: kvs)) as H.
    cbn [length]. apply Nat.le_trans with (S (S (length
      (join (44 :: w1) (map (member_text gap (indent ++ gap) w3) (kv :: kvs))))));
      [|lia].
    apply le_n_S, H. eapply Forall_impl; [exact IH|].
    intros x Hx. unfold member_text. rewrite !length_app. cbn [length].
    rewrite !length_app. specialize (Hx _ Hind'). lia.
Qed.

Lemma all_ws_spaces n : all_ws (repeat 32 n) = true.
Proof. induction n as [|n IH]; [reflexivity|exact IH]. Qed.

(** [JSON.parse(JSON.stringify(v, null, space))] is [v], for every value
    with well-formed strings and every numeric [space]. *)
Theorem JSON_parse_stringify v space :
  wf_json v = true -> JSON_parse (JSON_stringify v space) = Some v.
Proof.
  intros Hwf. unfold JSON_parse, JSON_stringify.
  set (gap := repeat 32 (Nat.min space 10)).
  assert (Hgap : all_ws gap = true) by apply all_ws_spaces.
  rewrite <- (app_nil_r (serialize gap [] v)) at 2.
  rewrite (parse_serialize gap Hgap v Hwf [] eq_refl).
  - reflexivity.
  - pose proof (cost_le_length gap v Hgap [] eq_refl). lia.
Qed.

(** ** The JSON export *)

Lemma str_eqb_eq a b : str_eqb a b = true <-> a = b.
Proof.
  revert b. induction a as [|x a IH]; intros [|y b]; cbn [str_eqb];
    try (split; [discriminate|discriminate]); [tauto|].
  rewrite andb_true_iff, N.eqb_eq, IH. split.
  - now intros [-> ->].
  - intros [= -> ->]. now split.
Qed.

Lemma serialize_record file :
  serialize [32; 32] [32; 32] (record_value file) = record_text file.
Proof.
  unfold record_text, record_value. cbn [serialize map join fst snd app].
  rewrite <- !app_assoc. reflexivity.
Qed.

(** The export in layout: brackets on lines of their own, the records
    between them, each indented by two spaces and all but the last
    followed by a comma. *)
Lemma json_export_layout file files :
  getExportOutput (lit "json") (file :: files)
  = lit "[" ++ [ch_lf]
      ++ lit "  " ++ join (lit "," ++ [ch_lf] ++ lit "  ")
                          (map record_text (file :: files))
      ++ [ch_lf] ++ lit "]".
Proof.
  transitivity
    (lit "[" ++ [ch_lf]
       ++ lit "  " ++ join (lit "," ++ [ch_lf] ++ lit "  ")
                           (map (serialize [32; 32] [32; 32])
                                (map record_value (file :: files)))
       ++ [ch_lf] ++ lit "]"); [reflexivity|].
  rewrite map_map. now rewrite (map_ext _ _ serialize_record).
Qed.

Lemma wf_records_value data :
  forallb wf_record data = true -> wf_json (records_value data) = true.
Proof.
  cbn [records_value wf_json].
  induction data as [|file data IH]; [reflexivity|].
  cbn [map forallb]. intros [Hf Hd]%andb_prop.
  rewrite (IH Hd), andb_true_r. unfold wf_record in Hf.
  cbn [record_value wf_json forallb fst snd].
  apply andb_prop in Hf as [-> ->]. reflexivity.
Qed.

Lemma value_records_value data :
  value_records (records_value data) = Some data.
Proof.
  cbn [value_records records_value].
  induction data as [|[n c] data IH]; [reflexivity|].
  cbn [map mapM]. rewrite IH. reflexivity.
Qed.

(** C6. For every non-empty sequence of records (of well-formed strings)
    the JSON export is the 2-space pretty-printed array of the
    [{ fileName, content }] objects, in input order, and parsing it gives
    the sequence back: same order, same property names, same strings. *)
Theorem json_export_roundtrip (data : list FileRecord) :
  data <> [] -> forallb wf_record data = true ->
  getExportOutput (lit "json") data
  = lit "[" ++ [ch_lf]
      ++ lit "  " ++ join (lit "," ++ [ch_lf] ++ lit "  ") (map record_text data)
      ++ [ch_lf] ++ lit "]"
  /\ JSON_parse (getExportOutput (lit "json") data) = Some (records_value data)
  /\ value_records (records_value data) = Some data.
Proof.
  intros Hne Hwf. split; [|split].
  - destruct data as [|file files]; [congruence|]. apply json_export_layout.
  - change (getExportOutput (lit "json") data)
      with (JSON_stringify (records_value data) 2).
    apply JSON_parse_stringify. now apply wf_records_value.
  - apply value_records_value.
Qed.

Lemma json_export_roundtrip_witness :
  sample_records <> [] /\ forallb wf_record sample_records = true
  /\ JSON_parse (getExportOutput (lit "json") sample_records)
     = Some (records_value sample_records).
Proof.
  assert (Hne : sample_records <> []) by discriminate.
  split; [exact Hne|]. split; [reflexivity|].
  exact (proj1 (proj2 (json_export_roundtrip sample_records Hne eq_refl))).
Defined.

(** ** The markdown export *)

Lemma convertToMarkdown_concat filesData :
  convertToMarkdown filesData = trim (concat (map md_block filesData)).
Proof.
  unfold convertToMarkdown. f_equal.
  rewrite <- (app_nil_l (concat _)). generalize (@nil code_unit) as acc.
  induction filesData as [|f fs IH]; intros acc; cbn [fold_left map concat].
  - now rewrite app_nil_r.
  - rewrite IH. now rewrite <- app_assoc.
Qed.

Lemma md_block_split file : md_block file = md_block_trimmed file ++ [ch_lf; ch_lf].
Proof. unfold md_block, md_block_trimmed. now rewrite <- !app_assoc. Qed.

(** A text that starts with [#] and ends with a backquote before two line
    feeds loses exactly the two line feeds. *)
Lemma trim_fenced t : trim (35 :: t ++ [96; 10; 10]) = 35 :: t ++ [96].
Proof.
  unfold trim. cbn [trimStart]. change (is_js_space 35) with false. cbv iota.
  unfold trimEnd. change (35 :: t ++ [96; 10; 10]) with ((35 :: t) ++ [96; 10; 10]).
  rewrite rev_app_distr. cbn [rev app trimStart].
  change (is_js_space 10) with true. change (is_js_space 96) with false.
  cbv iota. cbn [rev]. rewrite rev_app_distr, rev_involutive.
  reflexivity.
Qed.

Lemma md_blocks_fenced files file :
  exists t, concat (map md_block files) ++ md_block_trimmed file = 35 :: t ++ [96].
Proof.
  assert (Hlast : exists u, md_block_trimmed file = 35 :: u ++ [96]).
  { exists (lit "# " ++ fileName file ++ [ch_lf] ++ md_fence ++ [ch_lf]
              ++ content file ++ [ch_lf] ++ [96; 96]).
    unfold md_block_trimmed. rewrite <- !app_assoc. reflexivity. }
  destruct Hlast as [u Hu]. destruct files as [|f fs].
  - exists u. exact Hu.
  - exists (tl (md_block f) ++ concat (map md_block fs) ++ 35 :: u).
    cbn [map concat]. rewrite Hu, <- !app_assoc. reflexivity.
Qed.

(** C7. For every sequence of records the markdown export is, record by
    record in input order, the heading line [## fileName], a fence line
    without language tag, the content unchanged, a closing fence line and
    an empty line; the final [trim] removes only the line break and empty
    line that end the last block.  For the single record [a.txt] / [hi]
    it is exactly four lines with no line break after the closing fence. *)
Theorem markdown_export (files : list FileRecord) (file : FileRecord) :
  convertToMarkdown [] = []
  /\ md_block file
     = lit "## " ++ fileName file ++ [ch_lf] ++ lit "```" ++ [ch_lf]
         ++ content file ++ [ch_lf] ++ lit "```" ++ [ch_lf] ++ [ch_lf]
  /\ convertToMarkdown (files ++ [file])
     = concat (map md_block files) ++ md_block_trimmed file
  /\ convertToMarkdown (files ++ [file]) ++ [ch_lf; ch_lf]
     = concat (map md_block (files ++ [file]))
  /\ convertToMarkdown [mkFileRecord (lit "a.txt") (lit "hi")]
     = lit "## a.txt" ++ [ch_lf] ++ lit "```" ++ [ch_lf] ++ lit "hi"
         ++ [ch_lf] ++ lit "```".
Proof.
  assert (H : convertToMarkdown (files ++ [file])
              = concat (map md_block files) ++ md_block_trimmed file).
  { rewrite convertToMarkdown_concat, map_app, concat_app.
    cbn [map concat]. rewrite app_nil_r, md_block_split, app_assoc.
    destruct (md_blocks_fenced files file) as [t ->].
    cbn [app]. rewrite <- app_assoc. apply trim_fenced. }
  split; [reflexivity|]. split; [reflexivity|]. split; [exact H|].
  split; [|reflexivity].
  rewrite H, map_app, concat_app. cbn [map concat].
  now rewrite app_nil_r, md_block_split, app_assoc.
Qed.

(** ** The format switch *)

(** C8. For the empty sequence the JSON export is the empty array [[]]
    (which parses to the empty array), the XML export is [<files>], a
    line feed and [</files>], and the markdown export is the empty
    string. *)
Theorem export_empty :
  getExportOutput (lit "json") [] = lit "[]"
  /\ JSON_parse (getExportOutput (lit "json") []) = Some (JArray [])
  /\ getExportOutput (lit "xml") [] = lit "<files>" ++ [ch_lf] ++ lit "</files>"
  /\ getExportOutput (lit "markdown") [] = [].
Proof. repeat split; reflexivity. Qed.

(** C9. For every sequence of records, a format tag other than [json],
    [xml] and [markdown] gives the empty string; [getExportOutput] is a
    total function, so no error is raised. *)
Theorem export_unknown_format (fmt : jsstring) (data : list FileRecord) :
  fmt <> lit "json" -> fmt <> lit "xml" -> fmt <> lit "markdown" ->
  getExportOutput fmt data = [].
Proof.
  intros Hj Hx Hm. unfold getExportOutput.
  destruct (str_eqb fmt (lit "json")) eqn:E1;
    [apply str_eqb_eq in E1; contradiction|].
  destruct (str_eqb fmt (lit "xml")) eqn:E2;
    [apply str_eqb_eq in E2; contradiction|].
  destruct (str_eqb fmt (lit "markdown")) eqn:E3;
    [apply str_eqb_eq in E3; contradiction|].
  reflexivity.
Qed.

Lemma export_unknown_format_witness :
  lit "yaml" <> lit "json" /\ lit "yaml" <> lit "xml"
  /\ lit "yaml" <> lit "markdown"
  /\ getExportOutput (lit "yaml") sample_records = [].
Proof.
  assert (Hj : lit "yaml" <> lit "json") by discriminate.
  assert (Hx : lit "yaml" <> lit "xml") by discriminate.
  assert (Hm : lit "yaml" <> lit "markdown") by discriminate.
  split; [exact Hj|]. split; [exact Hx|]. split; [exact Hm|].
  exact (export_unknown_format (lit "yaml") sample_records Hj Hx Hm).
Defined.

(** ** The clipboard writer *)

Lemma existsb_is_node_last el body :
  existsb (is_node el) (body ++ [el]) = true.
Proof.
  rewrite existsb_app. cbn [existsb]. unfold is_node.
  rewrite Nat.eqb_refl. now rewrite orb_true_r.
Qed.

Lemma filter_fresh_node el body :
  forallb (fun x => Nat.ltb (node_id x) (node_id el)) body = true ->
  List.filter (fun x => negb (is_node el x)) (body ++ [el]) = body.
Proof.
  induction body as [|x body IH]; cbn [forallb app List.filter].
  - intros _. unfold is_node. now rewrite Nat.eqb_refl.
  - intros [Hx Hb]%andb_prop. apply Nat.ltb_lt in Hx.
    unfold is_node at 1. destruct (Nat.eqb_spec (node_id x) (node_id el)); [lia|].
    cbn [negb]. now rewrite IH.
Qed.

(** Simplifying a run of the DOM calls on the temporary element made for
    [text]. *)
Ltac dom_steps text :=
  unfold bind, modify, ret, throw, copy_selection, selected_text,
    drop_selection_of;
  cbn -[existsb List.filter normalize_newlines Nat.eqb];
  rewrite ?existsb_is_node_last;
  cbn -[existsb List.filter normalize_newlines Nat.eqb];
  try (destruct (normalize_newlines text) eqn:?);
  cbn -[existsb List.filter normalize_newlines Nat.eqb];
  rewrite ?existsb_is_node_last, ?Nat.eqb_refl;
  cbn -[existsb List.filter normalize_newlines Nat.eqb];
  rewrite ?existsb_is_node_last, ?Nat.eqb_refl;
  cbn -[existsb List.filter normalize_newlines Nat.eqb].

(** The fallback always ends with a boolean: [false] exactly when one of
    its DOM calls throws.  It touches neither the component state nor the
    console nor the timers. *)
Lemma clipboard_fallback_resolves p text pg :
  exists pg',
    clipboard_fallback p text pg = (Ok (negb (fallback_throws p)), pg')
    /\ same_app pg pg'.
Proof.
  unfold clipboard_fallback, fallback_throws, try_catch, bind, createElement,
    appendChild, select, execCommand_copy_call, removeChild, dom, throw, ret,
    modify, same_app. cbn [existsb].
  destruct (dom_throws p CreateElement); [eexists; split; [reflexivity|auto]|].
  destruct (dom_throws p AppendChild); [eexists; split; [reflexivity|auto]|].
  destruct (dom_throws p Select); [eexists; split; [reflexivity|auto]|].
  destruct (dom_throws p ExecCommand); [eexists; split; [reflexivity|auto]|].
  destruct (dom_throws p RemoveChild);
    [destruct (execCommand_copy p); dom_steps text;
     eexists; (split; [reflexivity|auto])|].
  destruct (execCommand_copy p); dom_steps text;
    eexists; (split; [reflexivity|auto]).
Qed.

Lemma autoCopyToClipboard_outcome p text pg :
  exists pg',
    autoCopyToClipboard p text pg
    = (Ok (negb (primary_fails p && fallback_throws p)), pg')
    /\ same_app pg pg'.
Proof.
  unfold autoCopyToClipboard, clipboard_primary, primary_fails.
  destruct (clipboard_api p) as [[|]|].
  - eexists. split; [reflexivity|]. unfold same_app. auto.
  - destruct (clipboard_fallback_resolves p text pg) as (pg' & H & Hsame).
    exists pg'. unfold bind, try_catch, writeText, throw, ret.
    split; [exact H|exact Hsame].
  - destruct (clipboard_fallback_resolves p text pg) as (pg' & H & Hsame).
    exists pg'. unfold bind, ret. split; [exact H|exact Hsame].
Qed.

(** C2. For every platform, text and page, [autoCopyToClipboard] ends
    with a boolean, never with an exception and never suspended; the
    boolean is [false] exactly when the primary strategy is unavailable
    or rejects and a DOM call of the fallback throws, and [true]
    otherwise. *)
Theorem autoCopyToClipboard_resolves (p : Platform) (text : jsstring) (pg : Page) :
  exists pg',
    autoCopyToClipboard p text pg
    = (Ok (negb (primary_fails p && fallback_throws p)), pg').
Proof.
  destruct (autoCopyToClipboard_outcome p text pg) as (pg' & H & _).
  now exists pg'.
Qed.

(** The claim as worded fails where the copy command returns [false]
    without throwing: both strategies have failed, nothing reached the
    clipboard, and the result is [true]. *)
Lemma autoCopyToClipboard_true_on_denied_copy :
  ~ false_iff_both_fail denied_platform (lit "hi") blank_page.
Proof.
  unfold false_iff_both_fail. intros [_ H].
  specialize (H (conj eq_refl eq_refl)). discriminate H.
Qed.

Example denied_copy_run :
  fst (autoCopyToClipboard denied_platform (lit "hi") blank_page) = Ok true
  /\ system_clipboard (snd (autoCopyToClipboard denied_platform (lit "hi") blank_page))
     = [].
Proof. split; reflexivity. Qed.

(** C3, on the code: when the copy command throws, the call returns
    [false] and the temporary [<textarea>] is still a child of the
    document body; it is removed only on the path where nothing throws. *)
Theorem fallback_leaves_textarea (text : jsstring) (pg : Page) :
  fst (autoCopyToClipboard throwing_platform text pg) = Ok false
  /\ document_body (snd (autoCopyToClipboard throwing_platform text pg))
     = document_body pg ++ [temp_textarea text pg].
Proof. split; reflexivity. Qed.

(** The same on every platform: once the element has been appended, a
    throw of any later DOM call leaves it in the document. *)
Lemma fallback_failure_leaves_textarea p text pg :
  primary_fails p = true ->
  dom_throws p CreateElement = false -> dom_throws p AppendChild = false ->
  dom_throws p Select || dom_throws p ExecCommand || dom_throws p RemoveChild
  = true ->
  fst (autoCopyToClipboard p text pg) = Ok false
  /\ document_body (snd (autoCopyToClipboard p text pg))
     = document_body pg ++ [temp_textarea text pg].
Proof.
  intros Hprim Hc Ha Hthrow.
  unfold autoCopyToClipboard, clipboard_primary, primary_fails in *.
  destruct (clipboard_api p) as [[|]|]; [discriminate| |];
    unfold clipboard_fallback, try_catch, bind, createElement, appendChild,
      select, execCommand_copy_call, removeChild, dom, throw, ret, modify,
      writeText;
    rewrite Hc, Ha;
    destruct (dom_throws p Select); [split; reflexivity| |split; reflexivity|];
    (destruct (dom_throws p ExecCommand); [split; reflexivity|]);
    (destruct (dom_throws p RemoveChild); [|discriminate]);
    destruct (execCommand_copy p); dom_steps text; split; reflexivity.
Qed.

Lemma textarea_left_behind :
  ~ body_restored throwing_platform (lit "hi") blank_page.
Proof. unfold body_restored. cbv. discriminate. Qed.

(** Where no DOM call throws the element is removed again. *)
Lemma fallback_success_restores_body p text pg :
  wf_page pg = true -> fallback_throws p = false ->
  body_restored p text pg.
Proof.
  intros Hwf Hthrows. unfold fallback_throws in Hthrows. cbn [existsb] in Hthrows.
  rewrite !orb_false_iff in Hthrows.
  destruct Hthrows as (H1 & H2 & H3 & H4 & H5 & _).
  unfold body_restored, autoCopyToClipboard, clipboard_primary.
  destruct (clipboard_api p) as [[|]|]; [reflexivity| |];
    unfold clipboard_fallback, try_catch, bind, createElement, appendChild,
      select, execCommand_copy_call, removeChild, dom, throw, ret, modify,
      writeText;
    rewrite H1, H2, H3, H4, H5;
    destruct (execCommand_copy p); dom_steps text;
    now apply filter_fresh_node.
Qed.

(** ** Promise.all over the reads of a batch *)

Section promise_all.
Variable fileArray : list File.

Lemma pending_after_init :
  (0 < length fileArray)%nat -> pending_after fileArray [] (all_init fileArray).
Proof.
  intros Hn. unfold pending_after, all_init. cbn [values remaining settled length].
  repeat split.
  - apply length_replicate.
  - lia.
  - destruct (Nat.eqb_spec (length fileArray) 0); [lia|reflexivity].
  - intros j [].
  - intros j Hj _. now apply lookup_replicate_2.
Qed.

(** One successful completion: its record goes to its own slot. *)
Lemma completion_fulfilled done st i r :
  pending_after fileArray done st -> ~ In i done ->
  fileArray !! i ≫= file_record = Some r ->
  let st' := completion fileArray st i in
  values st' = <[i := Some r]> (values st)
  /\ remaining st' = Nat.pred (remaining st)
  /\ settled st'
     = if Nat.eqb (Nat.pred (remaining st)) 0
       then Some (Ok (omap id (<[i := Some r]> (values st))))
       else None.
Proof.
  intros (Hlen & Hrem & Hset & Hdone & Hrest) Hi Hr.
  destruct (fileArray !! i) as [file|] eqn:Hfile; [|discriminate].
  assert (Hin : (i < length fileArray)%nat) by (apply lookup_lt_Some in Hfile; exact Hfile).
  cbn in Hr. unfold file_record in Hr.
  unfold completion. rewrite Hfile.
  destruct (read_result file) as [text|e]; [|discriminate].
  injection Hr as <-. unfold on_fulfilled. rewrite (Hrest i Hin Hi).
  cbn [remaining values settled].
  destruct (Nat.eqb (Nat.pred (remaining st)) 0).
  - unfold settle. cbn [settled values remaining]. rewrite Hset. now cbn.
  - cbn. now rewrite Hset.
Qed.

Lemma pending_after_step done st i r :
  pending_after fileArray done st -> ~ In i done ->
  fileArray !! i ≫= file_record = Some r ->
  (S (length done) < length fileArray)%nat ->
  pending_after fileArray (done ++ [i]) (completion fileArray st i).
Proof.
  intros Hinv Hi Hr Hlt.
  destruct (completion_fulfilled done st i r Hinv Hi Hr) as (Hv & Hrm & Hs).
  destruct Hinv as (Hlen & Hrem & Hset & Hdone & Hrest).
  assert (Hin : (i < length fileArray)%nat).
  { destruct (fileArray !! i) eqn:E; [|discriminate].
    apply lookup_lt_Some in E. exact E. }
  unfold pending_after. rewrite Hv, Hrm, Hs, length_insert, length_app.
  cbn [length]. repeat split.
  - exact Hlen.
  - lia.
  - destruct (Nat.eqb_spec (Nat.pred (remaining st)) 0); [lia|reflexivity].
  - intros j [Hj|[<-|[]]]%in_app_or.
    + destruct (Hdone j Hj) as (r' & Hr' & Hv').
      exists r'. split; [exact Hr'|].
      rewrite list_lookup_insert_ne; [exact Hv'|]. intros ->. contradiction.
    + exists r. split; [exact Hr|].
      apply list_lookup_insert_eq. lia.
  - intros j Hj Hnot.
    rewrite list_lookup_insert_ne.
    + apply Hrest; [exact Hj|]. intros H. apply Hnot, in_or_app. now left.
    + intros ->. apply Hnot, in_or_app. right. now left.
Qed.

(** Successful completions in any order, as long as some read is still
    to come. *)
Lemma pending_after_prefix done :
  NoDup done ->
  (forall j, In j done -> exists r, fileArray !! j ≫= file_record = Some r) ->
  (length done < length fileArray)%nat ->
  pending_after fileArray done (fold_left (completion fileArray) done (all_init fileArray)).
Proof.
  induction done as [|i done IH] using rev_ind; intros Hnd Hok Hlen.
  - apply pending_after_init. cbn in Hlen. lia.
  - rewrite fold_left_app. cbn [fold_left].
    rewrite length_app in Hlen. cbn [length] in Hlen.
    apply NoDup_app in Hnd as (Hnd & Hdisj & _).
    destruct (Hok i) as [r Hr]; [apply in_or_app; right; now left|].
    apply (pending_after_step done _ i r).
    + apply IH; [exact Hnd| |lia].
      intros j Hj. apply Hok, in_or_app. now left.
    + intros Hi. apply (Hdisj i); [now apply list_elem_of_In|].
      apply list_elem_of_In. now left.
    + exact Hr.
    + lia.
Qed.

(** Once settled, always settled the same way. *)
Lemma settled_completion st i r :
  settled st = Some r -> settled (completion fileArray st i) = Some r.
Proof.
  intros H. unfold completion.
  destruct (fileArray !! i) as [file|]; [|exact H].
  destruct (read_result file) as [text|e].
  - unfold on_fulfilled. destruct (values st !! i) as [[|]|]; try exact H.
    cbn [remaining]. destruct (Nat.eqb _ 0); [|exact H].
    unfold settle. cbn [settled]. now rewrite H.
  - unfold on_rejected, settle. now rewrite H.
Qed.

Lemma settled_fold order st r :
  settled st = Some r ->
  settled (fold_left (completion fileArray) order st) = Some r.
Proof.
  revert st. induction order as [|i order IH]; intros st H; [exact H|].
  cbn [fold_left]. apply IH. now apply settled_completion.
Qed.
(** A failing read rejects a promise that is still pending. *)
Lemma completion_rejected st i file e :
  fileArray !! i = Some file -> read_result file = inr e ->
  settled st = None ->
  settled (completion fileArray st i) = Some (Throw e).
Proof.
  intros Hfile He Hset. unfold completion. rewrite Hfile, He.
  unfold on_rejected, settle. now rewrite Hset.
Qed.
End promise_all.

(** While a read is outstanding the whole is pending; a failing read
    rejects it at once, whatever completes later. *)
Example promise_all_pending : Promise_all slow_fast_batch [1%nat] = None.
Proof. reflexivity. Qed.

Example promise_all_rejects_early :
  Promise_all failing_batch [1%nat] = Some (Throw (ReadError 1))
  /\ Promise_all failing_batch [1%nat; 0%nat; 2%nat] = Some (Throw (ReadError 1)).
Proof. split; reflexivity. Qed.

Lemma omap_id_Some (records : list FileRecord) :
  omap id (map Some records) = records.
Proof.
  induction records as [|r records IH]; [reflexivity|].
  cbn. now rewrite IH.
Qed.

(** When every read succeeds, the record of index [j] is the one the file
    at [j] gives. *)
Lemma records_lookup (fileArray : list File) records j :
  mapM file_record fileArray = Some records ->
  (j < length fileArray)%nat ->
  exists r, fileArray !! j ≫= file_record = Some r /\ records !! j = Some r.
Proof.
  intros Hrec%mapM_Some Hj.
  destruct (lookup_lt_is_Some_2 fileArray j Hj) as [file Hfile].
  destruct (Forall2_lookup_l _ _ _ _ _ Hrec Hfile) as (r & Hr & Hfr).
  exists r. rewrite Hfile. cbn. now split.
Qed.

Lemma order_facts (fileArray : list File) (order : list nat) :
  Permutation order (seq 0 (length fileArray)) ->
  length order = length fileArray /\ NoDup order
  /\ (forall j, In j order <-> (j < length fileArray)%nat).
Proof.
  intros Hperm. split; [|split].
  - rewrite (Permutation_length Hperm). apply length_seq.
  - apply NoDup_ListNoDup.
    apply (Permutation_NoDup (Permutation_sym Hperm)), seq_NoDup.
  - intros j. split.
    + intros Hj. apply (Permutation_in _ Hperm), in_seq in Hj. lia.
    + intros Hj. apply (Permutation_in _ (Permutation_sym Hperm)), in_seq. lia.
Qed.

Lemma extraction_in_input_order (fileArray : list File) order records :
  mapM file_record fileArray = Some records ->
  Permutation order (seq 0 (length fileArray)) ->
  Promise_all fileArray order = Some (Ok records).
Proof.
  intros Hrec Hperm.
  destruct (order_facts fileArray order Hperm) as (Hlen & Hnd & Hin).
  pose proof (Forall2_length _ _ _ (proj1 (mapM_Some _ _ _) Hrec)) as Hlenr.
  unfold Promise_all.
  destruct order as [|i done _] using rev_ind.
  - cbn [length] in Hlen. destruct fileArray; [|discriminate].
    destruct records; [reflexivity|discriminate].
  - rewrite length_app in Hlen. cbn [length] in Hlen.
    apply NoDup_app in Hnd as (Hnd & Hdisj & _).
    assert (Hi : ~ In i done).
    { intros H. apply (Hdisj i); apply list_elem_of_In; [exact H|now left]. }
    assert (Hpend : pending_after fileArray done
              (fold_left (completion fileArray) done (all_init fileArray))).
    { apply pending_after_prefix; [exact Hnd| |lia].
      intros j Hj. destruct (records_lookup fileArray records j Hrec) as (r & Hr & _).
      - apply Hin, in_or_app. now left.
      - now exists r. }
    destruct (records_lookup fileArray records i Hrec) as (r & Hr & Hri).
    { apply Hin, in_or_app. right. now left. }
    rewrite fold_left_app. cbn [fold_left].
    destruct (completion_fulfilled fileArray done _ i r Hpend Hi Hr) as (_ & _ & ->).
    destruct Hpend as (Hlenv & Hrem & _ & Hdone & _).
    rewrite Hrem. replace (length fileArray - length done)%nat with 1%nat by lia.
    cbn [Nat.pred Nat.eqb]. do 2 f_equal.
    rewrite <- (omap_id_Some records). f_equal.
    apply list_eq. intros j.
    destruct (Nat.lt_ge_cases j (length fileArray)) as [Hj|Hj].
    + destruct (Nat.eq_dec j i) as [->|Hne].
      * rewrite list_lookup_insert_eq by lia.
        change (map Some records) with (Some <$> records).
        now rewrite list_lookup_fmap, Hri.
      * rewrite list_lookup_insert_ne by congruence.
        assert (Hjd : In j done).
        { apply Hin in Hj. apply in_app_or in Hj as [Hj|[Hj|[]]]; congruence. }
        destruct (Hdone j Hjd) as (rj & Hrj & ->).
        destruct (records_lookup fileArray records j Hrec Hj) as (rj' & Hrj' & Hl).
        change (map Some records) with (Some <$> records).
        rewrite list_lookup_fmap, Hl. cbn. congruence.
    + rewrite !lookup_ge_None_2; [reflexivity| |].
      * rewrite length_map. lia.
      * rewrite length_insert. lia.
Qed.

(** The first failing read in completion order. *)
Lemma first_failure_split (fileArray : list File) (order : list nat) :
  (forall j, In j order -> (j < length fileArray)%nat) ->
  (exists i file e, In i order /\ fileArray !! i = Some file
                    /\ read_result file = inr e) ->
  exists pre i post file e,
    order = pre ++ i :: post
    /\ (forall j, In j pre -> exists r, fileArray !! j ≫= file_record = Some r)
    /\ fileArray !! i = Some file /\ read_result file = inr e.
Proof.
  induction order as [|a order IH]; intros Hlt (i & file & e & Hi & Hfile & He).
  - destruct Hi.
  - destruct (lookup_lt_is_Some_2 fileArray a) as [fa Hfa].
    { apply Hlt. now left. }
    destruct (read_result fa) as [text|ea] eqn:Hra.
    + destruct Hi as [->|Hi]; [congruence|].
      destruct IH as (pre & i' & post & file' & e' & -> & Hpre & Hf' & He').
      { intros j Hj. apply Hlt. now right. }
      { now exists i, file, e. }
      exists (a :: pre), i', post, file', e'. repeat split; try assumption.
      intros j [<-|Hj]; [|now apply Hpre].
      exists (mkFileRecord (name fa) text). rewrite Hfa. cbn.
      unfold file_record. now rewrite Hra.
    + exists [], a, order, fa, ea. repeat split; try assumption.
      intros j [].
Qed.

Lemma extraction_rejects (fileArray : list File) (order : list nat) :
  Permutation order (seq 0 (length fileArray)) ->
  (exists file e, In file fileArray /\ read_result file = inr e) ->
  exists file e,
    In file fileArray /\ read_result file = inr e
    /\ Promise_all fileArray order = Some (Throw e).
Proof.
  intros Hperm (file & e & Hfile & He).
  destruct (order_facts fileArray order Hperm) as (Hlen & Hnd & Hin).
  apply list_elem_of_In, list_elem_of_lookup in Hfile as [i Hi].
  destruct (first_failure_split fileArray order) as
    (pre & k & post & fk & ek & -> & Hpre & Hfk & Hek).
  { intros j. apply Hin. }
  { exists i, file, e. repeat split; try assumption.
    apply Hin. now apply lookup_lt_Some in Hi. }
  exists fk, ek. split; [|split; [exact Hek|]].
  { apply list_elem_of_In, list_elem_of_lookup. now exists k. }
  rewrite length_app in Hlen. cbn [length] in Hlen.
  apply NoDup_app in Hnd as (Hnd & _ & _).
  unfold Promise_all. rewrite fold_left_app. cbn [fold_left].
  apply settled_fold.
  destruct (pending_after_prefix fileArray pre Hnd Hpre) as (_ & _ & Hset & _);
    [lia|].
  now apply (completion_rejected fileArray _ k fk ek).
Qed.

Lemma records_names (fileArray : list File) records :
  mapM file_record fileArray = Some records ->
  map fileName records = map name fileArray
  /\ map (fun r => inl (content r)) records = map read_result fileArray.
Proof.
  intros H%mapM_Some. induction H as [|file r files records Hr _ [IH1 IH2]];
    [split; reflexivity|].
  unfold file_record in Hr. destruct (read_result file) eqn:E; [|discriminate].
  injection Hr as <-. cbn [map fileName content]. rewrite IH1, IH2, E.
  split; reflexivity.
Qed.

(** C5. For every batch whose reads all succeed and every order in which
    the reads complete, the extraction resolves with the records in input
    order: the record at each position has the name and the text of the
    file at that position. *)
Theorem extraction_input_order (fileArray : list File) (order : list nat)
    (records : list FileRecord) :
  mapM file_record fileArray = Some records ->
  Permutation order (seq 0 (length fileArray)) ->
  Promise_all fileArray order = Some (Ok records)
  /\ map fileName records = map name fileArray
  /\ map (fun r => inl (content r)) records = map read_result fileArray.
Proof.
  intros Hrec Hperm. split.
  - now apply extraction_in_input_order.
  - now apply records_names.
Qed.

Lemma extraction_input_order_witness :
  Promise_all slow_fast_batch slow_fast_order
  = Some (Ok [mkFileRecord (lit "first.txt") (lit "slow");
              mkFileRecord (lit "second.txt") (lit "fast")]).
Proof.
  refine (proj1 (extraction_input_order slow_fast_batch slow_fast_order _ eq_refl _)).
  apply perm_swap.
Defined.

(** ** readAndSetFiles *)

(** C4. If the read of any file of the batch fails, whatever the order in
    which the reads complete, the extraction rejects and yields no
    records, and [readAndSetFiles] leaves the component state, the
    displayed export, the document, the clipboard and the timers as they
    were: the only effect is one entry on the error console. *)
Theorem batch_failure_changes_nothing (p : Platform) (order : list nat)
    (fileArray : list File) (pg : Page) :
  Permutation order (seq 0 (length fileArray)) ->
  (exists file e, In file fileArray /\ read_result file = inr e) ->
  exists e,
    Promise_all fileArray order = Some (Throw e)
    /\ readAndSetFiles p order fileArray pg
       = (Ok tt,
          mkPage (app_state pg) (document_body pg) (next_node_id pg)
                 (selection pg) (system_clipboard pg)
                 (console pg ++ [(lit "Error reading files:", e)]) (timers pg))
    /\ displayed_export (app_state (snd (readAndSetFiles p order fileArray pg)))
       = displayed_export (app_state pg).
Proof.
  intros Hperm Hfail.
  destruct (extraction_rejects fileArray order Hperm Hfail) as (_ & e & _ & _ & H).
  exists e. split; [exact H|].
  unfold readAndSetFiles, bind, gets, try_catch, await. rewrite H.
  split; reflexivity.
Qed.

Lemma batch_failure_changes_nothing_witness :
  readAndSetFiles denied_platform [2%nat; 1%nat; 0%nat] failing_batch loaded_page
  = (Ok tt,
     mkPage (app_state loaded_page) [] 0 None []
            [(lit "Error reading files:", ReadError 1)] []).
Proof.
  destruct (batch_failure_changes_nothing denied_platform [2%nat; 1%nat; 0%nat]
              failing_batch loaded_page) as (e & He & Hrun & _).
  - change (seq 0 (length failing_batch)) with [0%nat; 1%nat; 2%nat].
    apply Permutation_rev.
  - exists (mkFile (lit "b.txt") (inr (ReadError 1))), (ReadError 1).
    split; [right; left; reflexivity|reflexivity].
  - rewrite Hrun. injection He as <-. reflexivity.
Defined.

(** C10. Whenever the extraction of a batch resolves, [readAndSetFiles]
    completes normally and the stored list is then exactly the records of
    that batch, whatever was stored before: the concatenation [newData]
    of the old and the new records is computed and not used. *)
Theorem batch_replaces_stored_list (p : Platform) (order : list nat)
    (fileArray : list File) (pg : Page) (records : list FileRecord) :
  Promise_all fileArray order = Some (Ok records) ->
  exists pg',
    readAndSetFiles p order fileArray pg = (Ok tt, pg')
    /\ filesData (app_state pg') = records.
Proof.
  intros H.
  unfold readAndSetFiles, bind, gets, try_catch, await. rewrite H.
  unfold setFilesData at 1. unfold modify at 1.
  match goal with |- context [autoCopyToClipboard p ?text ?pg1] =>
    destruct (autoCopyToClipboard_outcome p text pg1) as (pg2 & -> & Happ & _)
  end.
  eexists. split; [reflexivity|].
  cbn. now rewrite Happ.
Qed.

Lemma batch_replaces_stored_list_witness :
  filesData (app_state loaded_page) = sample_records
  /\ exists pg',
       readAndSetFiles denied_platform slow_fast_order slow_fast_batch loaded_page
       = (Ok tt, pg')
       /\ filesData (app_state pg')
          = [mkFileRecord (lit "first.txt") (lit "slow");
             mkFileRecord (lit "second.txt") (lit "fast")].
Proof.
  split; [reflexivity|].
  apply (batch_replaces_stored_list denied_platform slow_fast_order
           slow_fast_batch loaded_page). reflexivity.
Defined.

(** * Further properties of the converters *)


(** ** convertToXML *)

Lemma escape_unit_nonempty x : exists c t, escape_unit x = c :: t.
Proof.
  unfold escape_unit.
  repeat match goal with
  | |- context [if ?b then _ else _] => destruct b; [eexists _, _; reflexivity|]
  end.
  now exists x, [].
Qed.

Lemma escaped_length_ge s : (length s <= length (flat_map escape_unit s))%nat.
Proof.
  induction s as [|x s IH]; [reflexivity|].
  cbn [flat_map]. rewrite length_app.
  destruct (escape_unit_nonempty x) as (c & t & ->). cbn [length]. lia.
Qed.

Lemma escape_unit_unreserved x : is_reserved x = false -> escape_unit x = [x].
Proof.
  unfold is_reserved. cbn [existsb]. rewrite !orb_false_iff.
  intros (H1 & H2 & H3 & H4 & H5 & _). unfold escape_unit.
  now rewrite H1, H2, H3, H4, H5.
Qed.

(** X1. Escaping leaves a content string as it is exactly when the string
    holds none of the five reserved characters. *)
Theorem escape_identity_iff (s : jsstring) :
  escapeContent s = s <-> forallb (fun c => negb (is_reserved c)) s = true.
Proof.
  rewrite escapeContent_flat_map. induction s as [|x s IH]; [tauto|].
  cbn [flat_map forallb]. rewrite andb_true_iff, negb_true_iff, <- IH.
  split.
  - intros H. pose proof (escaped_length_ge s) as Hlen.
    split_reserved x;
      try (apply (f_equal (@length _)) in H; cbn in H;
           rewrite ?length_app in H; cbn in H; lia);
      try discriminate H.
    rewrite escape_unit_unreserved in H.
    + injection H as H. split; [|exact H].
      unfold is_reserved. cbn [existsb]. unreserved. reflexivity.
    + unfold is_reserved. cbn [existsb]. unreserved. reflexivity.
  - intros [Hx Hs]. rewrite (escape_unit_unreserved x Hx), Hs. reflexivity.
Qed.

(** X2. Escaping loses nothing: two content strings with the same escape
    are the same string. *)
Theorem escape_injective (a b : jsstring) :
  escapeContent a = escapeContent b -> a = b.
Proof.
  intros H. rewrite <- (unescape_escape a), <- (unescape_escape b).
  now rewrite H.
Qed.

Lemma escape_injective_witness :
  escapeContent (lit "a<b") = escapeContent (lit "a<b")
  /\ lit "a<b" = lit "a<b".
Proof.
  split; [reflexivity|].
  exact (escape_injective (lit "a<b") (lit "a<b") eq_refl).
Defined.

(** X3. The [name] attribute is written unescaped: for all names and
    contents, one record whose name closes the attribute and spells the
    rest of an element gives the same document as two records. *)
Theorem xml_name_written_raw (n1 c1 n2 c2 : jsstring) :
  convertToXML
    [mkFileRecord
       (n1 ++ [ch_quot; ch_gt] ++ escapeContent c1 ++ lit "</file>"
           ++ [ch_lf] ++ lit "  <file name=" ++ [ch_quot] ++ n2)
       c2]
  = convertToXML [mkFileRecord n1 c1; mkFileRecord n2 c2].
Proof.
  rewrite !convertToXML_elements. cbn [map concat]. f_equal.
  rewrite !app_nil_r. unfold xml_element. cbn [fileName content].
  flatten_app. reflexivity.
Qed.

(** ** convertToMarkdown *)

(** X4. The content is not protected against fences: for all names and
    contents, one record whose content closes the fence and spells a
    heading and a new fence gives the same document as two records. *)
Theorem markdown_fence_in_content (n1 c1 n2 c2 : jsstring) :
  convertToMarkdown
    [mkFileRecord n1
       (c1 ++ [ch_lf] ++ md_fence ++ [ch_lf; ch_lf]
           ++ lit "## " ++ n2 ++ [ch_lf] ++ md_fence ++ [ch_lf] ++ c2)]
  = convertToMarkdown [mkFileRecord n1 c1; mkFileRecord n2 c2].
Proof.
  rewrite !convertToMarkdown_concat. f_equal. cbn [map concat].
  rewrite !app_nil_r. unfold md_block. cbn [fileName content].
  flatten_app. reflexivity.
Qed.

Lemma convertToMarkdown_cons_shape first rest :
  exists t,
    convertToMarkdown (first :: rest)
    = lit "## " ++ fileName first ++ [ch_lf] ++ t ++ md_fence.
Proof.
  destruct (exists_last (l := first :: rest)) as (files & file & Heq);
    [discriminate|].
  rewrite Heq. rewrite convertToMarkdown_concat, map_app, concat_app.
  cbn [map concat]. rewrite app_nil_r, md_block_split, app_assoc.
  destruct (md_blocks_fenced files file) as [u Hu]. rewrite Hu.
  cbn [app]. rewrite <- app_assoc. cbn [app]. rewrite trim_fenced, <- Hu.
  destruct files as [|f files].
  - cbn [app] in Heq. injection Heq as -> ->.
    exists (md_fence ++ [ch_lf] ++ content file ++ [ch_lf]).
    cbn [map concat app]. unfold md_block_trimmed.
    flatten_app. reflexivity.
  - cbn [app] in Heq. injection Heq as -> _.
    exists (md_fence ++ [ch_lf] ++ content f ++ [ch_lf] ++ md_fence
              ++ [ch_lf; ch_lf] ++ concat (map md_block files)
              ++ lit "## " ++ fileName file ++ [ch_lf] ++ md_fence ++ [ch_lf]
              ++ content file ++ [ch_lf]).
    cbn [map concat]. unfold md_block at 1, md_block_trimmed.
    flatten_app. reflexivity.
Qed.

(** X5. The markdown export is empty for the empty list only; otherwise it
    starts with the heading of the first record and ends with the closing
    fence of the last, with no white space around it. *)
Theorem markdown_export_shape (data : list FileRecord) :
  match data with
  | [] => convertToMarkdown data = []
  | first :: _ =>
      exists t,
        convertToMarkdown data
        = lit "## " ++ fileName first ++ [ch_lf] ++ t ++ md_fence
  end.
Proof.
  destruct data as [|first rest]; [reflexivity|].
  apply convertToMarkdown_cons_shape.
Qed.

(** ** getExportOutput *)

(** X6. The export is the empty string in two cases only: the format tag
    is none of the three, or the format is markdown and there is no
    record.  The JSON and XML exports are never empty. *)
Theorem export_empty_iff (fmt : jsstring) (data : list FileRecord) :
  getExportOutput fmt data = []
  <-> fmt <> lit "json" /\ fmt <> lit "xml"
      /\ (fmt = lit "markdown" -> data = []).
Proof.
  unfold getExportOutput.
  destruct (str_eqb fmt (lit "json")) eqn:E1.
  { apply str_eqb_eq in E1. subst fmt. split; [|intros [H _]; congruence].
    destruct data as [|f fs]; [discriminate|].
    change (JSON_stringify (records_value (f :: fs)) 2)
      with (getExportOutput (lit "json") (f :: fs)).
    rewrite json_export_layout. discriminate. }
  destruct (str_eqb fmt (lit "xml")) eqn:E2.
  { apply str_eqb_eq in E2. subst fmt. split; [|intros (_ & H & _); congruence].
    rewrite convertToXML_elements. discriminate. }
  assert (Hj : fmt <> lit "json").
  { intros H. apply str_eqb_eq in H. congruence. }
  assert (Hx : fmt <> lit "xml").
  { intros H. apply str_eqb_eq in H. congruence. }
  destruct (str_eqb fmt (lit "markdown")) eqn:E3.
  - apply str_eqb_eq in E3. subst fmt. split.
    + intros H. repeat split; try assumption. intros _.
      destruct data as [|f fs]; [reflexivity|].
      destruct (convertToMarkdown_cons_shape f fs) as [t Ht].
      rewrite Ht in H. discriminate H.
    + intros (_ & _ & H). now rewrite (H eq_refl).
  - split; [|reflexivity]. intros _. repeat split; try assumption.
    intros H. apply str_eqb_eq in H. congruence.
Qed.

(** ** The JSON export *)

(** X7. The JSON export loses nothing: two lists of records (of
    well-formed strings) with the same export are the same list. *)
Theorem json_export_injective (a b : list FileRecord) :
  forallb wf_record a = true -> forallb wf_record b = true ->
  getExportOutput (lit "json") a = getExportOutput (lit "json") b ->
  a = b.
Proof.
  intros Ha Hb H.
  change (JSON_stringify (records_value a) 2 = JSON_stringify (records_value b) 2) in H.
  apply (f_equal JSON_parse) in H.
  rewrite !JSON_parse_stringify in H by now apply wf_records_value.
  assert (Hv : records_value a = records_value b) by congruence.
  apply (f_equal value_records) in Hv.
  rewrite !value_records_value in Hv. now injection Hv.
Qed.

Lemma json_export_injective_witness :
  getExportOutput (lit "json") sample_records
  = getExportOutput (lit "json") sample_records
  /\ sample_records = sample_records.
Proof.
  split; [reflexivity|].
  exact (json_export_injective sample_records sample_records
           eq_refl eq_refl eq_refl).
Defined.

Lemma occurrences_app c a b :
  occurrences c (a ++ b) = (occurrences c a + occurrences c b)%nat.
Proof.
  induction a as [|x a IH]; [reflexivity|].
  cbn [app occurrences]. destruct (x =? c); rewrite IH; reflexivity.
Qed.

Lemma hex_digit_not_lf d : (hex_digit d =? 10) = false.
Proof.
  unfold hex_digit. apply N.eqb_neq. destruct (d <? 10); lia.
Qed.

Lemma unicode_escape_no_lf c : occurrences 10 (unicode_escape c) = O.
Proof.
  unfold unicode_escape. cbn [occurrences].
  now rewrite !hex_digit_not_lf.
Qed.

Lemma quote_unit_no_lf c : occurrences 10 (quote_unit c) = O.
Proof.
  unfold quote_unit.
  repeat match goal with
  | |- context [if ?x =? ?k then _ else _] =>
      destruct (N.eqb_spec x k); [reflexivity|]
  end.
  destruct (_ || _); [apply unicode_escape_no_lf|].
  cbn [occurrences]. now rewrite (eqb_ne c 10).
Qed.

(** Quoting escapes every line feed. *)
Lemma quote_units_no_lf s : occurrences 10 (quote_units s) = O.
Proof.
  remember (length s) as k eqn:Hk.
  revert s Hk. induction (lt_wf k) as [k _ IH]. intros s ->.
  destruct s as [|c r]; [reflexivity|]. cbn [quote_units].
  assert (IHr : occurrences 10 (quote_units r) = O)
    by (apply (IH (length r)); [cbn; lia|reflexivity]).
  destruct (is_high_surrogate c) eqn:Hhigh.
  - destruct r as [|d r']; [apply unicode_escape_no_lf|].
    destruct (is_low_surrogate d) eqn:Hlow.
    + destruct (surrogate_plain c (or_introl Hhigh)) as (_ & _ & Hc).
      destruct (surrogate_plain d (or_intror Hlow)) as (_ & _ & Hd).
      cbn [occurrences].
      rewrite (eqb_ne c 10), (eqb_ne d 10) by lia.
      apply (IH (length r')); [cbn; lia|reflexivity].
    + now rewrite occurrences_app, unicode_escape_no_lf, IHr.
  - now rewrite occurrences_app, quote_unit_no_lf, IHr.
Qed.

Lemma record_text_line_feeds file : occurrences 10 (record_text file) = 3%nat.
Proof.
  unfold record_text, QuoteJSONString.
  rewrite !occurrences_app, !quote_units_no_lf. reflexivity.
Qed.

Lemma join_records_line_feeds file files :
  occurrences 10 (join (lit "," ++ [ch_lf] ++ lit "  ")
                       (map record_text (file :: files)))
  = (4 * length files + 3)%nat.
Proof.
  revert file. induction files as [|f fs IH]; intros file.
  - cbn [map join length]. now rewrite record_text_line_feeds.
  - cbn [map]. rewrite join_cons2, !occurrences_app, record_text_line_feeds.
    change (record_text f :: map record_text fs)
      with (map record_text (f :: fs)).
    rewrite IH. cbn [length].
    change (occurrences 10 (lit ",")) with O.
    change (occurrences 10 [ch_lf]) with 1%nat.
    change (occurrences 10 (lit "  ")) with O. lia.
Qed.

(** X8. Every line feed of a name or a content is escaped in the JSON
    export: the export of [n] records, [n] at least one, has exactly
    [4 n + 1] line feeds, whatever the records hold. *)
Theorem json_export_line_feeds (file : FileRecord) (files : list FileRecord) :
  occurrences ch_lf (getExportOutput (lit "json") (file :: files))
  = (4 * length (file :: files) + 1)%nat.
Proof.
  rewrite json_export_layout, !occurrences_app, join_records_line_feeds.
  cbn [length].
  change (occurrences ch_lf (lit "[")) with O.
  change (occurrences ch_lf [ch_lf]) with 1%nat.
  change (occurrences ch_lf (lit "  ")) with O.
  change (occurrences ch_lf (lit "]")) with O. lia.
Qed.

(** * Further properties of the clipboard writer *)

Lemma normalize_newlines_nonempty text :
  text <> [] -> normalize_newlines text <> [].
Proof.
  destruct text as [|c r]; [congruence|]. intros _. cbn [normalize_newlines].
  destruct (c =? 13); [|discriminate].
  destruct r as [|d r']; [discriminate|]. destruct (d =? 10); discriminate.
Qed.

Example normalize_newlines_crlf :
  normalize_newlines (lit "a" ++ [13; 10] ++ lit "b" ++ [13] ++ lit "c" ++ [10])
  = lit "a" ++ [10] ++ lit "b" ++ [10] ++ lit "c" ++ [10].
Proof. reflexivity. Qed.

(** Every run of [autoCopyToClipboard], by cases on what the platform
    decides. *)
Ltac run_clipboard p text :=
  unfold autoCopyToClipboard, clipboard_primary, clipboard_fallback,
    try_catch, bind, createElement, appendChild, select,
    execCommand_copy_call, removeChild, dom, throw, ret, modify, writeText;
  destruct (clipboard_api p) as [[|]|];
  destruct (dom_throws p CreateElement), (dom_throws p AppendChild),
    (dom_throws p Select), (dom_throws p ExecCommand),
    (dom_throws p RemoveChild), (execCommand_copy p);
  dom_steps text.

Lemma autoCopyToClipboard_api p text pg :
  clipboard_api p = Some true ->
  autoCopyToClipboard p text pg
  = (Ok true,
     mkPage (app_state pg) (document_body pg) (next_node_id pg) (selection pg)
            text (console pg) (timers pg)).
Proof.
  intros H. unfold autoCopyToClipboard, clipboard_primary. rewrite H.
  reflexivity.
Qed.

(** X9. On a platform whose clipboard API resolves, a result of [true]
    means that the clipboard holds the text.  On the fallback path, with
    a copy command that copies when it does not throw and a text that is
    not empty, a result of [true] means that the clipboard holds the text
    as the [<textarea>] hands it out: with every CR LF and every CR
    turned into LF. *)
Theorem clipboard_true_means_copied (p : Platform) (text : jsstring) (pg : Page) :
  primary_fails p = false \/ (execCommand_copy p = true /\ text <> []) ->
  fst (autoCopyToClipboard p text pg) = Ok true ->
  system_clipboard (snd (autoCopyToClipboard p text pg))
  = if primary_fails p then normalize_newlines text else text.
Proof.
  unfold primary_fails.
  run_clipboard p text; intros [H|[H Hne]] Hres; try discriminate;
    try reflexivity; try congruence;
    exfalso; now apply (normalize_newlines_nonempty text Hne).
Qed.

Lemma clipboard_true_means_copied_witness :
  system_clipboard
    (snd (autoCopyToClipboard legacy_platform (lit "a" ++ [13; 10] ++ lit "b")
            blank_page))
  = lit "a" ++ [10] ++ lit "b".
Proof.
  apply (clipboard_true_means_copied legacy_platform
           (lit "a" ++ [13; 10] ++ lit "b") blank_page);
    [right; split; [reflexivity|discriminate]|reflexivity].
Defined.

(** X10. Whatever the platform does, the call puts nothing on the
    clipboard but the given text, as it is or with its line breaks
    normalised (afterwards the clipboard holds one of the two or what it
    held before), and it changes neither the component state nor the
    console nor the timers. *)
Theorem clipboard_text_or_unchanged (p : Platform) (text : jsstring) (pg : Page) :
  (system_clipboard (snd (autoCopyToClipboard p text pg)) = text
   \/ system_clipboard (snd (autoCopyToClipboard p text pg))
      = normalize_newlines text
   \/ system_clipboard (snd (autoCopyToClipboard p text pg)) = system_clipboard pg)
  /\ app_state (snd (autoCopyToClipboard p text pg)) = app_state pg
  /\ console (snd (autoCopyToClipboard p text pg)) = console pg
  /\ timers (snd (autoCopyToClipboard p text pg)) = timers pg.
Proof. run_clipboard p text; repeat split; auto. Qed.

(** X11. Where the API is missing or rejects, no DOM call throws, the
    copy command copies and the text is not empty, the fallback returns
    [true] with the text on the clipboard, its line breaks normalised by
    the [<textarea>]; the temporary element is gone from the document
    again. *)
Theorem fallback_copies_text (p : Platform) (text : jsstring) (pg : Page) :
  primary_fails p = true -> fallback_throws p = false ->
  execCommand_copy p = true -> wf_page pg = true -> text <> [] ->
  fst (autoCopyToClipboard p text pg) = Ok true
  /\ system_clipboard (snd (autoCopyToClipboard p text pg))
     = normalize_newlines text
  /\ document_body (snd (autoCopyToClipboard p text pg)) = document_body pg.
Proof.
  intros Hprim Hthrows Hcopy Hwf Hne.
  pose proof (fallback_success_restores_body p text pg Hwf Hthrows) as Hbody.
  unfold body_restored in Hbody. rewrite Hbody. clear Hbody.
  apply normalize_newlines_nonempty in Hne.
  unfold primary_fails, fallback_throws in *. cbn [existsb] in Hthrows.
  rewrite !orb_false_iff in Hthrows.
  destruct Hthrows as (H1 & H2 & H3 & H4 & H5 & _).
  unfold autoCopyToClipboard, clipboard_primary, clipboard_fallback,
    try_catch, bind, createElement, appendChild, select,
    execCommand_copy_call, removeChild, dom, throw, ret, modify, writeText.
  rewrite H1, H2, H3, H4, H5, Hcopy.
  destruct (clipboard_api p) as [[|]|]; [discriminate| |];
    dom_steps text; try congruence; repeat split; reflexivity.
Qed.

Lemma fallback_copies_text_witness :
  system_clipboard
    (snd (autoCopyToClipboard legacy_platform (lit "a" ++ [13] ++ lit "b")
            blank_page))
  = lit "a" ++ [10] ++ lit "b"
  /\ document_body
       (snd (autoCopyToClipboard legacy_platform (lit "a" ++ [13] ++ lit "b")
               blank_page))
     = [].
Proof.
  assert (Hne : lit "a" ++ [13] ++ lit "b" <> []) by discriminate.
  destruct (fallback_copies_text legacy_platform (lit "a" ++ [13] ++ lit "b")
              blank_page eq_refl eq_refl eq_refl eq_refl Hne)
    as (_ & Hclip & Hbody).
  split; [exact Hclip|exact Hbody].
Defined.

(** * Further properties of the handlers *)

(** ** readAndSetFiles *)

(** The run of [readAndSetFiles] when the extraction resolves. *)
Lemma readAndSetFiles_resolved p order fileArray pg records :
  Promise_all fileArray order = Some (Ok records) ->
  exists pg2,
    autoCopyToClipboard p
      (getExportOutput (selectedExportFormat (app_state pg)) records)
      (with_app (fun a => mkAppState records (selectedExportFormat a)
                            (isDragging a) (copyMessage a)) pg)
    = (Ok (negb (primary_fails p && fallback_throws p)), pg2)
    /\ readAndSetFiles p order fileArray pg
       = (Ok tt,
          mkPage (mkAppState records (selectedExportFormat (app_state pg))
                    (isDragging (app_state pg))
                    (auto_copy_message (negb (primary_fails p && fallback_throws p))))
                 (document_body pg2) (next_node_id pg2) (selection pg2)
                 (system_clipboard pg2) (console pg)
                 (timers pg ++ [(3000, ClearCopyMessage)])).
Proof.
  intros H.
  unfold readAndSetFiles, bind, gets, try_catch, await. rewrite H.
  unfold setFilesData at 1. unfold modify at 1.
  match goal with |- context [autoCopyToClipboard p ?text ?pg1] =>
    destruct (autoCopyToClipboard_outcome p text pg1)
      as (pg2 & Hrun & Happ & Hcons & Htim)
  end.
  exists pg2. split; [exact Hrun|]. rewrite Hrun.
  unfold setCopyMessage, setTimeout, modify, with_app, auto_copy_message.
  cbn in Happ, Hcons, Htim. cbn. rewrite Happ, Hcons, Htim. reflexivity.
Qed.

(** X12. When the extraction resolves, the handler stores the records,
    keeps the selected format and the dragging flag, sets the status
    message by the outcome of the copy, schedules one timer of 3000 ms
    that clears the message, and writes nothing to the console. *)
Theorem batch_success_state (p : Platform) (order : list nat)
    (fileArray : list File) (pg : Page) (records : list FileRecord) :
  Promise_all fileArray order = Some (Ok records) ->
  app_state (snd (readAndSetFiles p order fileArray pg))
  = mkAppState records (selectedExportFormat (app_state pg))
      (isDragging (app_state pg))
      (auto_copy_message (negb (primary_fails p && fallback_throws p)))
  /\ timers (snd (readAndSetFiles p order fileArray pg))
     = timers pg ++ [(3000, ClearCopyMessage)]
  /\ console (snd (readAndSetFiles p order fileArray pg)) = console pg.
Proof.
  intros H.
  destruct (readAndSetFiles_resolved p order fileArray pg records H)
    as (pg2 & _ & ->).
  repeat split; reflexivity.
Qed.

Lemma batch_success_state_witness :
  copyMessage (app_state
    (snd (readAndSetFiles throwing_platform slow_fast_order slow_fast_batch
            loaded_page)))
  = lit "Clipboard copy failed.".
Proof.
  destruct (batch_success_state throwing_platform slow_fast_order
              slow_fast_batch loaded_page _ eq_refl) as (-> & _ & _).
  reflexivity.
Defined.

(** X13. With a working clipboard API, what a resolved batch puts on the
    clipboard is the export of the new records alone, in the format that
    was selected; when the batch is not empty this is the text the page
    then displays. *)
Theorem batch_copies_new_export (p : Platform) (order : list nat)
    (fileArray : list File) (pg : Page) (records : list FileRecord) :
  clipboard_api p = Some true ->
  Promise_all fileArray order = Some (Ok records) ->
  system_clipboard (snd (readAndSetFiles p order fileArray pg))
  = getExportOutput (selectedExportFormat (app_state pg)) records
  /\ (records <> [] ->
      displayed_export (app_state (snd (readAndSetFiles p order fileArray pg)))
      = Some (system_clipboard (snd (readAndSetFiles p order fileArray pg)))).
Proof.
  intros Hapi H.
  destruct (readAndSetFiles_resolved p order fileArray pg records H)
    as (pg2 & Hrun & ->).
  rewrite (autoCopyToClipboard_api p _ _ Hapi) in Hrun.
  injection Hrun as _ <-. cbn [snd system_clipboard app_state].
  split; [reflexivity|]. intros Hne. unfold displayed_export.
  cbn [filesData selectedExportFormat].
  destruct records; [contradiction|reflexivity].
Qed.

Lemma batch_copies_new_export_witness :
  system_clipboard
    (snd (readAndSetFiles modern_platform slow_fast_order slow_fast_batch
            loaded_page))
  = getExportOutput (lit "json")
      [mkFileRecord (lit "first.txt") (lit "slow");
       mkFileRecord (lit "second.txt") (lit "fast")].
Proof.
  exact (proj1 (batch_copies_new_export modern_platform slow_fast_order
                  slow_fast_batch loaded_page _ eq_refl eq_refl)).
Defined.

(** X14. While a read of the batch is outstanding and none has failed,
    the handler stays suspended and the page is exactly as it was. *)
Theorem batch_pending_changes_nothing (p : Platform) (order : list nat)
    (fileArray : list File) (pg : Page) :
  NoDup order ->
  (forall j, In j order -> exists r, fileArray !! j ≫= file_record = Some r) ->
  (length order < length fileArray)%nat ->
  readAndSetFiles p order fileArray pg = (Suspended, pg).
Proof.
  intros Hnd Hok Hlen.
  destruct (pending_after_prefix fileArray order Hnd Hok Hlen)
    as (_ & _ & Hset & _).
  unfold readAndSetFiles, bind, gets, try_catch, await, Promise_all.
  now rewrite Hset.
Qed.

Lemma batch_pending_changes_nothing_witness :
  readAndSetFiles modern_platform [1%nat] slow_fast_batch loaded_page
  = (Suspended, loaded_page).
Proof.
  apply batch_pending_changes_nothing.
  - apply NoDup_singleton.
  - intros j [<-|[]]. eexists. reflexivity.
  - cbn. lia.
Defined.

Lemma NoDup_bounded_length (l : list nat) n :
  NoDup l -> (forall x, In x l -> (x < n)%nat) -> (length l <= n)%nat.
Proof.
  intros Hnd Hlt. rewrite <- (length_seq n 0).
  apply submseteq_length, NoDup_submseteq; [exact Hnd|].
  intros x Hx%list_elem_of_In. apply elem_of_seq.
  specialize (Hlt x Hx). lia.
Qed.

(** X15. The error that is logged is the one of the read that fails first
    in completion order, not in input order: if the reads before it all
    succeeded, its error goes to the console and nothing else changes,
    whatever completes later. *)
Theorem first_failure_is_reported (p : Platform) (pre post : list nat)
    (i : nat) (fileArray : list File) (file : File) (e : error) (pg : Page) :
  NoDup pre -> ~ In i pre ->
  (forall j, In j pre -> exists r, fileArray !! j ≫= file_record = Some r) ->
  fileArray !! i = Some file -> read_result file = inr e ->
  readAndSetFiles p (pre ++ i :: post) fileArray pg
  = (Ok tt,
     mkPage (app_state pg) (document_body pg) (next_node_id pg)
            (selection pg) (system_clipboard pg)
            (console pg ++ [(lit "Error reading files:", e)]) (timers pg)).
Proof.
  intros Hnd Hi Hok Hfile He.
  assert (Hlen : (length pre < length fileArray)%nat).
  { assert (H : (length (pre ++ [i]) <= length fileArray)%nat).
    { apply NoDup_bounded_length.
      - apply NoDup_app. split; [exact Hnd|]. split; [|apply NoDup_singleton].
        intros x Hx%list_elem_of_In Hxi%list_elem_of_In.
        destruct Hxi as [<-|[]]. contradiction.
      - intros x [Hx|[<-|[]]]%in_app_or.
        + destruct (Hok x Hx) as [r Hr].
          destruct (fileArray !! x) eqn:E; [|discriminate].
          now apply lookup_lt_Some in E.
        + now apply lookup_lt_Some in Hfile. }
    rewrite length_app in H. cbn [length] in H. lia. }
  destruct (pending_after_prefix fileArray pre Hnd Hok Hlen)
    as (_ & _ & Hset & _).
  assert (Hall : Promise_all fileArray (pre ++ i :: post) = Some (Throw e)).
  { unfold Promise_all. rewrite fold_left_app. cbn [fold_left].
    apply settled_fold.
    now apply (completion_rejected fileArray _ i file e). }
  unfold readAndSetFiles, bind, gets, try_catch, await. rewrite Hall.
  reflexivity.
Qed.

Lemma first_failure_is_reported_witness :
  console (snd (readAndSetFiles modern_platform [1%nat; 0%nat]
                  two_failures_batch blank_page))
  = [(lit "Error reading files:", ReadError 2)].
Proof.
  assert (Hnone : forall j, In j [] ->
            exists r, two_failures_batch !! j ≫= file_record = Some r)
    by (intros j []).
  exact (f_equal (fun r => console (snd r))
           (first_failure_is_reported modern_platform [] [0%nat] 1
              two_failures_batch (mkFile (lit "b.txt") (inr (ReadError 2)))
              (ReadError 2) blank_page
              (NoDup_nil_2 (A := nat)) (fun H : In 1%nat [] => H) Hnone
              eq_refl eq_refl)).
Defined.

(** An empty batch resolves at once, whatever completions are listed. *)
Lemma Promise_all_empty order : Promise_all [] order = Some (Ok []).
Proof. unfold Promise_all. now apply settled_fold. Qed.

(** X16. The two entry points treat an empty file list differently.  The
    file input returns at once and changes nothing.  A drop goes on to
    [readAndSetFiles]: the stored list becomes empty, so the page
    displays no export any more, whatever it displayed before. *)
Theorem empty_drop_clears_list (p : Platform) (order : list nat)
    (event : DragEvent) (pg : Page) :
  dataTransfer_files event = [] ->
  handleFileInputChange p order (Some []) pg = (Ok tt, pg)
  /\ handleFileInputChange p order None pg = (Ok tt, pg)
  /\ filesData (app_state (snd (handleDrop p order event pg))) = []
  /\ displayed_export (app_state (snd (handleDrop p order event pg))) = None.
Proof.
  intros Hfiles. split; [reflexivity|]. split; [reflexivity|].
  unfold handleDrop, bind, setIsDragging, modify. cbv beta iota.
  cbn [stopPropagation preventDefault dataTransfer_files]. rewrite Hfiles.
  match goal with |- context [readAndSetFiles p order [] ?pg1] =>
    destruct (readAndSetFiles_resolved p order [] pg1 [] (Promise_all_empty order))
      as (pg2 & _ & ->)
  end.
  split; reflexivity.
Qed.

Lemma empty_drop_clears_list_witness :
  filesData (app_state loaded_page) = sample_records
  /\ filesData (app_state
       (snd (handleDrop modern_platform [] (mkDragEvent false false []) loaded_page)))
     = [].
Proof.
  split; [reflexivity|].
  exact (proj1 (proj2 (proj2 (empty_drop_clears_list modern_platform []
           (mkDragEvent false false []) loaded_page eq_refl)))).
Defined.

(** [readAndSetFiles] never changes the selected format or the dragging
    flag, however it ends. *)
Lemma readAndSetFiles_keeps_flags p order fileArray pg :
  isDragging (app_state (snd (readAndSetFiles p order fileArray pg)))
  = isDragging (app_state pg)
  /\ selectedExportFormat (app_state (snd (readAndSetFiles p order fileArray pg)))
     = selectedExportFormat (app_state pg).
Proof.
  destruct (Promise_all fileArray order) as [[records|e|]|] eqn:H.
  - destruct (readAndSetFiles_resolved p order fileArray pg records H)
      as (pg2 & _ & ->). split; reflexivity.
  - unfold readAndSetFiles, bind, gets, try_catch, await. rewrite H.
    split; reflexivity.
  - unfold readAndSetFiles, bind, gets, try_catch, await. rewrite H.
    split; reflexivity.
  - unfold readAndSetFiles, bind, gets, try_catch, await. rewrite H.
    split; reflexivity.
Qed.

(** X17. However a drop ends (the batch resolves, a read fails, a read
    never completes) the dragging highlight is off afterwards and the
    selected format is what it was. *)
Theorem drop_ends_dragging (p : Platform) (order : list nat)
    (event : DragEvent) (pg : Page) :
  isDragging (app_state (snd (handleDrop p order event pg))) = false
  /\ selectedExportFormat (app_state (snd (handleDrop p order event pg)))
     = selectedExportFormat (app_state pg).
Proof.
  unfold handleDrop, bind, setIsDragging, modify. cbv beta iota.
  match goal with |- context [readAndSetFiles p order ?fa ?pg1] =>
    pose proof (readAndSetFiles_keeps_flags p order fa pg1) as [Hd Hf];
    destruct (readAndSetFiles p order fa pg1) as [[[]|e|] pg2]
  end; unfold ret; cbn [snd fst] in *; rewrite Hd, Hf; split; reflexivity.
Qed.

(** The clipboard writer does not look at the component state: changing
    it before the call or after it is the same. *)
Lemma autoCopyToClipboard_with_app f p text pg :
  autoCopyToClipboard p text (with_app f pg)
  = (fst (autoCopyToClipboard p text pg),
     with_app f (snd (autoCopyToClipboard p text pg))).
Proof. run_clipboard p text; reflexivity. Qed.

(** X18. Clearing the list before a batch that resolves makes no
    difference: the page after the batch is the same with and without the
    [clearFiles] before it. *)
Theorem clear_before_batch_redundant (p : Platform) (order : list nat)
    (fileArray : list File) (pg : Page) (records : list FileRecord) :
  Promise_all fileArray order = Some (Ok records) ->
  snd (readAndSetFiles p order fileArray (snd (clearFiles pg)))
  = snd (readAndSetFiles p order fileArray pg).
Proof.
  intros H.
  destruct (readAndSetFiles_resolved p order fileArray pg records H)
    as (pg2 & Hrun & ->).
  destruct (readAndSetFiles_resolved p order fileArray (snd (clearFiles pg))
              records H) as (pg2' & Hrun' & ->).
  cbn [snd]. 
  change (with_app _ (snd (clearFiles pg)))
    with (with_app (fun a => mkAppState (filesData a) (selectedExportFormat a)
                               (isDragging a) [])
            (with_app (fun a => mkAppState records (selectedExportFormat a)
                                  (isDragging a) (copyMessage a)) pg)) in Hrun'.
  change (selectedExportFormat (app_state (snd (clearFiles pg))))
    with (selectedExportFormat (app_state pg)) in Hrun'.
  rewrite autoCopyToClipboard_with_app, Hrun in Hrun'.
  injection Hrun' as <-. reflexivity.
Qed.

Lemma clear_before_batch_redundant_witness :
  snd (readAndSetFiles legacy_platform slow_fast_order slow_fast_batch
         (snd (clearFiles loaded_page)))
  = snd (readAndSetFiles legacy_platform slow_fast_order slow_fast_batch
           loaded_page).
Proof.
  exact (clear_before_batch_redundant legacy_platform slow_fast_order
           slow_fast_batch loaded_page _ eq_refl).
Defined.

(** ** copyManually and the timers *)

(** The run of [copyManually]. *)
Lemma copyManually_outcome p pg :
  exists pg2,
    autoCopyToClipboard p
      (getExportOutput (selectedExportFormat (app_state pg))
                       (filesData (app_state pg))) pg
    = (Ok (negb (primary_fails p && fallback_throws p)), pg2)
    /\ copyManually p pg
       = (Ok tt,
          mkPage (mkAppState (filesData (app_state pg))
                    (selectedExportFormat (app_state pg))
                    (isDragging (app_state pg))
                    (manual_copy_message (negb (primary_fails p && fallback_throws p))))
                 (document_body pg2) (next_node_id pg2) (selection pg2)
                 (system_clipboard pg2) (console pg)
                 (timers pg ++ [(3000, ClearCopyMessage)])).
Proof.
  unfold copyManually, bind, gets.
  match goal with |- context [autoCopyToClipboard p ?text pg] =>
    destruct (autoCopyToClipboard_outcome p text pg)
      as (pg2 & Hrun & Happ & Hcons & Htim)
  end.
  exists pg2. split; [exact Hrun|]. rewrite Hrun.
  unfold setCopyMessage, setTimeout, modify, with_app, manual_copy_message.
  destruct (negb (primary_fails p && fallback_throws p));
    cbn; rewrite Happ, Hcons, Htim; reflexivity.
Qed.

(** X19. With a working clipboard API the manual copy puts on the
    clipboard exactly the text the page displays, and it leaves the
    stored list and the displayed export as they are. *)
Theorem manual_copy_is_displayed_text (p : Platform) (pg : Page) :
  clipboard_api p = Some true ->
  filesData (app_state pg) <> [] ->
  displayed_export (app_state pg)
  = Some (system_clipboard (snd (copyManually p pg)))
  /\ filesData (app_state (snd (copyManually p pg))) = filesData (app_state pg)
  /\ displayed_export (app_state (snd (copyManually p pg)))
     = displayed_export (app_state pg).
Proof.
  intros Hapi Hne.
  destruct (copyManually_outcome p pg) as (pg2 & Hrun & ->).
  rewrite (autoCopyToClipboard_api p _ _ Hapi) in Hrun.
  injection Hrun as _ <-. cbn [snd system_clipboard app_state filesData].
  unfold displayed_export. cbn [filesData selectedExportFormat].
  destruct (filesData (app_state pg)); [contradiction|].
  repeat split; reflexivity.
Qed.

Lemma manual_copy_is_displayed_text_witness :
  displayed_export (app_state loaded_page)
  = Some (system_clipboard (snd (copyManually modern_platform loaded_page))).
Proof.
  refine (proj1 (manual_copy_is_displayed_text modern_platform loaded_page
                   eq_refl _)).
  discriminate.
Defined.

(** X20. The timers are never cancelled, so a message can vanish early:
    after two manual copies on a page without pending timers, the timer
    of the first copy clears the message of the second, while the timer
    of the second is still pending. *)
Theorem copy_message_cleared_early (p : Platform) (pg : Page) :
  timers pg = [] ->
  copyMessage (app_state (snd (copyManually p (snd (copyManually p pg))))) <> []
  /\ copyMessage (app_state
       (snd (fire_next_timer (snd (copyManually p (snd (copyManually p pg)))))))
     = []
  /\ timers (snd (fire_next_timer (snd (copyManually p (snd (copyManually p pg))))))
     = [(3000, ClearCopyMessage)].
Proof.
  intros Htimers.
  destruct (copyManually_outcome p pg) as (pg2 & _ & ->). cbn [snd].
  match goal with |- context [copyManually p ?pg1] =>
    destruct (copyManually_outcome p pg1) as (pg3 & _ & ->)
  end.
  cbn [snd app_state copyMessage timers]. rewrite Htimers.
  split; [|split; reflexivity].
  unfold manual_copy_message.
  destruct (negb (primary_fails p && fallback_throws p)); discriminate.
Qed.

Lemma copy_message_cleared_early_witness :
  copyMessage (app_state
    (snd (fire_next_timer
            (snd (copyManually modern_platform
                    (snd (copyManually modern_platform loaded_page)))))))
  = [].
Proof.
  exact (proj1 (proj2 (copy_message_cleared_early modern_platform loaded_page
                         eq_refl))).
Defined.
